(** * cfngen: placeholder expansion for YAML templates

  A shallow embedding of [src/aws-cft/cfngen.py] and the verification of
  its placeholder locator ([match_placeholder]), its expander
  ([process_placeholder]), the line-stream processor
  ([generate_processed_content]) and the driver ([process_templates]).

  Modelling conventions.
  - A Python [str] is a [string]; a character is a code point below 256
    (the Latin-1 range), classified as CPython classifies it there.
  - A file system is a finite view [path -> option (list string)]: the
    lines [list(file)] returns for an existing path, [None] for a path
    that does not exist.
  - A write replaces what its path reads as; whether the operating
    system lets it through is part of the world.
  - A raised exception is the [Raised] outcome of a [result]. *)

From Stdlib Require Import String Ascii List Bool Arith ZArith NArith Lia.
Import ListNotations.

Open Scope string_scope.
Open Scope bool_scope.

(* ================================================================== *)
(** * Python string primitives *)
(* ================================================================== *)

Module PyStr.

(** Code point of a character. *)
Definition ord (c : ascii) : N := N_of_ascii c.

Definition in_range (lo hi : N) (c : ascii) : bool :=
  (lo <=? ord c)%N && (ord c <=? hi)%N.

(** [str.isspace] on one character, which is also the class [\s] of a
    [str] pattern: TAB..CR, FS..US, SPACE, NEL and NBSP. *)
Definition isspace (c : ascii) : bool :=
  in_range 9 13 c || in_range 28 32 c
  || (ord c =? 133)%N || (ord c =? 160)%N.

(** The class [\w] of a [str] pattern: alphanumeric or underscore. *)
Definition isword (c : ascii) : bool :=
  in_range 48 57 c || in_range 65 90 c || in_range 97 122 c
  || (ord c =? 95)%N
  || (ord c =? 170)%N || (ord c =? 178)%N || (ord c =? 179)%N
  || (ord c =? 181)%N || (ord c =? 185)%N || (ord c =? 186)%N
  || in_range 188 190 c
  || in_range 192 214 c || in_range 216 246 c || in_range 248 255 c.

(** The class [\S]. *)
Definition notspace (c : ascii) : bool := negb (isspace c).

Definition newline : ascii := "010"%char.
Definition nl : string := String newline "".

(** The double quote, and a text between double quotes. *)
Definition dquote : ascii := "034"%char.
Definition dq : string := String dquote "".
Definition quoted (s : string) : string := dq ++ s ++ dq.

Fixpoint all_chars (p : ascii -> bool) (s : string) : bool :=
  match s with
  | "" => true
  | String c s' => p c && all_chars p s'
  end.

Fixpoint concat_all (l : list string) : string :=
  match l with
  | [] => ""
  | x :: l' => x ++ concat_all l'
  end.

(** [" " * n]: the empty string when [n <= 0]. *)
Fixpoint spaces_nat (n : nat) : string :=
  match n with
  | O => ""
  | S k => String " " (spaces_nat k)
  end.

Definition spaces (n : Z) : string := spaces_nat (Z.to_nat n).

(** [s.lstrip()]. *)
Fixpoint lstrip (s : string) : string :=
  match s with
  | "" => ""
  | String c s' => if isspace c then lstrip s' else s
  end.

(** [s.rstrip()]. *)
Fixpoint rstrip (s : string) : string :=
  match s with
  | "" => ""
  | String c s' =>
      match rstrip s' with
      | "" => if isspace c then "" else String c ""
      | r => String c r
      end
  end.

(** [s.strip()]. *)
Definition strip (s : string) : string := lstrip (rstrip s).

(** [s.lstrip(chars)] for a one-character [chars]. *)
Fixpoint lstrip_char (d : ascii) (s : string) : string :=
  match s with
  | "" => ""
  | String c s' => if Ascii.eqb c d then lstrip_char d s' else s
  end.

(** Truthiness of a [str]. *)
Definition truthy (s : string) : bool :=
  match s with "" => false | _ => true end.

(** [s.startswith(p)]. *)
Fixpoint startswith (s p : string) {struct p} : bool :=
  match p, s with
  | "", _ => true
  | String a p', String b s' => Ascii.eqb a b && startswith s' p'
  | String _ _, "" => false
  end.

(** [s.endswith(suf)]: some suffix of [s] is [suf]. *)
Fixpoint endswith (s suf : string) : bool :=
  String.eqb s suf
  || match s with
     | "" => false
     | String _ s' => endswith s' suf
     end.

(** [s.replace(old, new)] for a non-empty [old]: scan left to right,
    [skip] counts the characters of an occurrence still to be dropped. *)
Fixpoint replace_from (old new : string) (skip : nat) (s : string)
  : string :=
  match s with
  | "" => ""
  | String c s' =>
      match skip with
      | S k => replace_from old new k s'
      | O =>
          if startswith s old
          then new ++ replace_from old new (String.length old - 1) s'
          else String c (replace_from old new 0 s')
      end
  end.

(** [s.replace("", new)]: [new] before every character and at the end. *)
Fixpoint interleave (new s : string) : string :=
  match s with
  | "" => new
  | String c s' => new ++ String c (interleave new s')
  end.

Definition replace (s old new : string) : string :=
  match old with
  | "" => interleave new s
  | _ => replace_from old new 0 s
  end.

(** [c.lower()] on the Latin-1 range. *)
Definition lower_char (c : ascii) : ascii :=
  if in_range 65 90 c
     || (in_range 192 222 c && negb (ord c =? 215)%N)
  then ascii_of_N (ord c + 32)
  else c.

Fixpoint lower (s : string) : string :=
  match s with
  | "" => ""
  | String c s' => String (lower_char c) (lower s')
  end.

(** [s.rfind(c)] for a one-character needle: the last index, or [-1]. *)
Fixpoint rfind_from (d : ascii) (i : Z) (last : Z) (s : string) : Z :=
  match s with
  | "" => last
  | String c s' =>
      rfind_from d (i + 1) (if Ascii.eqb c d then i else last) s'
  end.

Definition rfind (s : string) (d : ascii) : Z := rfind_from d 0 (-1) s.

(** The slice [s[i:j]] for [0 <= i]. *)
Definition slice (s : string) (i j : Z) : string :=
  substring (Z.to_nat i) (Z.to_nat (j - i)) s.

(** The slice [s[i:]] for [0 <= i]. *)
Definition slice_from (s : string) (i : Z) : string :=
  substring (Z.to_nat i) (String.length s - Z.to_nat i) s.

(** The lines [list(file)] yields for a file that holds the text [s],
    read in text mode: a line ends after a line feed, a carriage return
    or a carriage return and line feed, each read as a newline. *)
Fixpoint split_lines (s : string) : list string :=
  match s with
  | "" => []
  | String c s' =>
      if Ascii.eqb c newline then nl :: split_lines s'
      else if Ascii.eqb c "013" then
        match s' with
        | String c' s'' =>
            if Ascii.eqb c' newline then nl :: split_lines s''
            else nl :: split_lines s'
        | "" => [nl]
        end
      else
        match split_lines s' with
        | [] => [String c ""]
        | line :: lines => String c line :: lines
        end
  end.

End PyStr.

Import PyStr.

(* ================================================================== *)
(** * The [re] fragment used by the locator *)
(* ================================================================== *)

Module Re.

(** A pattern is a sequence of character classes, each taken once,
    greedily zero or more times, or greedily one or more times. *)
Inductive quant := One | Star | Plus.

Record item := Item { cls : ascii -> bool; qnt : quant }.

Definition lit (d : ascii) : item := Item (Ascii.eqb d) One.

(** Greedy repetition with backtracking: take one more character of the
    class if the rest of the pattern still matches afterwards, otherwise
    hand over to the continuation [k] here. The result is the text
    consumed by this item, the texts of the items after it, and the
    unconsumed input. *)
Fixpoint star (p : ascii -> bool)
    (k : string -> option (list string * string)) (s : string)
  : option (string * list string * string) :=
  match s with
  | String c s' =>
      if p c then
        match star p k s' with
        | Some (g, gs, r) => Some (String c g, gs, r)
        | None =>
            match k s with
            | Some (gs, r) => Some ("", gs, r)
            | None => None
            end
        end
      else
        match k s with
        | Some (gs, r) => Some ("", gs, r)
        | None => None
        end
  | "" =>
      match k s with
      | Some (gs, r) => Some ("", gs, r)
      | None => None
      end
  end.

(** Match the pattern at the start of [s]: the text consumed by each
    item, in order, and the rest of the input. *)
Fixpoint match_here (pat : list item) (s : string)
  : option (list string * string) :=
  match pat with
  | [] => Some ([], s)
  | Item p One :: pat' =>
      match s with
      | String c s' =>
          if p c then
            match match_here pat' s' with
            | Some (gs, r) => Some (String c "" :: gs, r)
            | None => None
            end
          else None
      | "" => None
      end
  | Item p Star :: pat' =>
      match star p (match_here pat') s with
      | Some (g, gs, r) => Some (g :: gs, r)
      | None => None
      end
  | Item p Plus :: pat' =>
      match s with
      | String c s' =>
          if p c then
            match star p (match_here pat') s' with
            | Some (g, gs, r) => Some (String c g :: gs, r)
            | None => None
            end
          else None
      | "" => None
      end
  end.

(** A match object: the text before the match, the text of each item of
    the pattern, the text after the match. *)
Record Match := MkMatch {
  m_pre : string;
  m_parts : list string;
  m_post : string
}.

(** [match.group(0)]. *)
Definition group0 (m : Match) : string := concat_all (m_parts m).

(** The text of the [i]-th item of the pattern. *)
Definition part (m : Match) (i : nat) : string := nth i (m_parts m) "".

(** [re.search]: the match at the leftmost position that has one. *)
Fixpoint search (pat : list item) (s : string) : option Match :=
  match match_here pat s with
  | Some (gs, r) => Some (MkMatch "" gs r)
  | None =>
      match s with
      | "" => None
      | String c s' =>
          match search pat s' with
          | Some m => Some (MkMatch (String c (m_pre m)) (m_parts m) (m_post m))
          | None => None
          end
      end
  end.

End Re.

Import Re.

(* ================================================================== *)
(** * [os.path] on POSIX *)
(* ================================================================== *)

Module OsPath.

(** [os.path.join(a, b)]. *)
Definition join (a b : string) : string :=
  if startswith b "/" then b
  else if negb (truthy a) || endswith a "/" then a ++ b
  else a ++ "/" ++ b.

(** [os.path.splitext(p)]: the extension starts at the last dot of the
    last path component, unless that component has only dots before it. *)
Definition splitext (p : string) : string * string :=
  let sepIndex := rfind p "/" in
  let dotIndex := rfind p "." in
  if (sepIndex <? dotIndex)%Z then
    if all_chars (Ascii.eqb ".") (slice p (sepIndex + 1) dotIndex)
    then (p, "")
    else (slice p 0 dotIndex, slice_from p dotIndex)
  else (p, "").

(** [s.rstrip("/")]. *)
Fixpoint rstrip_slash (s : string) : string :=
  match s with
  | "" => ""
  | String c s' =>
      match rstrip_slash s' with
      | "" => if Ascii.eqb c "/" then "" else String c ""
      | r => String c r
      end
  end.

(** [os.path.dirname(p)]: the text up to the last slash, without trailing
    slashes unless it has nothing but slashes. *)
Definition dirname (p : string) : string :=
  let i := (rfind p "/" + 1)%Z in
  let head := slice p 0 i in
  if truthy head && negb (all_chars (Ascii.eqb "/") head)
  then rstrip_slash head
  else head.

End OsPath.

(* ================================================================== *)
(** * The program *)
(* ================================================================== *)

Module Cfngen.

Definition INDENTATION_SIZE : Z := 2.

(** The exceptions the program raises. *)
Inductive exn :=
| FileNotFoundError (msg : string)
| EmptyFileError (msg : string)
| OSError (msg : string).

Inductive result (A : Type) :=
| Returned (a : A)
| Raised (e : exn).
Arguments Returned {A} a.
Arguments Raised {A} e.

Definition bind {A B : Type} (r : result A) (k : A -> result B)
  : result B :=
  match r with
  | Returned a => k a
  | Raised e => Raised e
  end.

Notation "x <- r ;; k" := (bind r (fun x => k))
  (at level 61, r at next level, right associativity).

(** The readable part of the file system. *)
Definition FS := string -> option (list string).

Definition read_file_content (fs : FS) (file_path : string)
  : result (list string) :=
  match fs file_path with
  | None => Raised (FileNotFoundError ("File '" ++ file_path ++ "' not found."))
  | Some lines => Returned lines
  end.

(** The pattern ["{{\s*(\S+)\.(\w+)\s*}}"]; group 1 is item 4 and
    group 2 is item 6. *)
Definition pattern : list item :=
  [ lit dquote; lit "{"; lit "{";
    Item isspace Star;
    Item notspace Plus;
    lit ".";
    Item isword Plus;
    Item isspace Star;
    lit "}"; lit "}"; lit dquote ].

(** The dictionary [match_placeholder] returns. *)
Record placeholder := Placeholder {
  line_truncated : string;
  file_name : string;
  indentation : Z
}.

Definition match_placeholder (line : string) : option placeholder :=
  match search pattern line with
  | Some m =>
      let placeholder := group0 m in
      let file_name := part m 4 ++ "." ++ part m 6 in
      let indentation :=
        (Z.of_nat (String.length line)
         - Z.of_nat (String.length (lstrip line)) + INDENTATION_SIZE)%Z in
      Some (Placeholder (replace line placeholder "") file_name indentation)
  | None => None
  end.

(** [l[-1] += s] on a non-empty list. *)
Fixpoint append_to_last (l : list string) (s : string) : list string :=
  match l with
  | [] => []
  | [x] => [x ++ s]
  | x :: l' => x :: append_to_last l' s
  end.

(** [x in l] for strings. *)
Definition mem (x : string) (l : list string) : bool :=
  existsb (String.eqb x) l.

Definition process_placeholder (fs : FS)
    (root file_name line_truncated : string) (indentation : Z)
  : result (list string) :=
  let file_path := OsPath.join root file_name in
  file_content <- read_file_content fs file_path ;;
  let file_ext := lstrip_char "." (snd (OsPath.splitext file_name)) in
  if match file_content with [] => true | _ => false end
     || forallb (fun line => String.eqb (strip line) "") file_content
  then Raised (EmptyFileError ("File '" ++ file_path ++ "' is empty."))
  else
    if (List.length file_content =? 1)%nat then
      Returned
        [ replace line_truncated nl
            (replace (nth 0 file_content "") nl "" ++ nl) ]
    else
      let file_content :=
        if negb (endswith (last file_content "") nl)
        then append_to_last file_content nl
        else file_content in
      if mem (lower file_ext) ["yaml"; "yml"] then
        let formatted_content := [line_truncated] in
        let file_content :=
          if String.eqb (nth 0 file_content "") ("---" ++ nl)
          then tl file_content
          else file_content in
        Returned
          (fold_left
             (fun formatted_content line =>
                let formatted_line :=
                  if truthy (strip line)
                  then spaces indentation ++ line
                  else nl in
                (formatted_content ++ [formatted_line])%list)
             file_content formatted_content)
      else
        Returned
          (replace line_truncated nl ("|" ++ nl)
           :: map (fun line =>
                     if truthy (lstrip line)
                     then spaces indentation ++ line
                     else nl)
                  file_content).

(** The loop of [generate_processed_content], from the lines still to
    process and the lines accumulated so far. *)
Fixpoint process_lines (fs : FS) (root : string)
    (file_content processed_lines : list string)
  : result (list string) :=
  match file_content with
  | [] => Returned processed_lines
  | line :: rest =>
      match match_placeholder line with
      | Some m =>
          out <- process_placeholder fs root (file_name m)
                   (line_truncated m) (indentation m) ;;
          process_lines fs root rest (processed_lines ++ out)%list
      | None => process_lines fs root rest (processed_lines ++ [line])%list
      end
  end.

Definition generate_processed_content (fs : FS) (root : string)
    (file_content : list string) : result (list string) :=
  process_lines fs root file_content [].

(** How the operating system treats an attempt to write a file: it lets
    it through, it refuses before the file is opened (the directory
    cannot be made or the file cannot be opened), or it fails once the
    file is open, after some characters of the text have reached it. *)
Inductive write_fault :=
| NoFault
| FaultBeforeOpen
| FaultAfterOpen (reached : nat).

(** The world the driver acts on: the files it can read, the files it
    has written in full (path and text, oldest first), what it has
    printed, and how the operating system treats a write to each path.
    A path is the file it names: two paths name the same file when they
    are the same text. *)
Record World := MkWorld {
  files : FS;
  written : list (string * string);
  stdout : list string;
  faults : string -> write_fault
}.

(** The world after [text] has reached the file [target_file], which is
    created or replaced: reading it yields the lines of [text]. *)
Definition store (w : World) (target_file text : string) : World :=
  MkWorld
    (fun p =>
       if String.eqb p target_file then Some (split_lines text)
       else files w p)
    (written w) (stdout w) (faults w).

(** The world after a write has been completed. *)
Definition record_write (w : World) (target_file text : string) : World :=
  MkWorld (files w) (written w ++ [(target_file, text)])%list
          (stdout w) (faults w).

(** [os.makedirs] of the empty path raises; the directories themselves
    are not part of the world. A write that fails leaves the world as
    the operating system left it. *)
Definition save_yaml_template (w : World) (content : list string)
    (target_file : string) : World * result unit :=
  if truthy (OsPath.dirname target_file) then
    let text := concat_all content in
    match faults w target_file with
    | FaultBeforeOpen =>
        (w, Raised (OSError ("cannot open '" ++ target_file ++ "'")))
    | FaultAfterOpen reached =>
        (store w target_file (substring 0 reached text),
         Raised (OSError ("cannot write '" ++ target_file ++ "'")))
    | NoFault =>
        (record_write (store w target_file text) target_file text,
         Returned tt)
    end
  else
    (w, Raised (FileNotFoundError
                  "[Errno 2] No such file or directory: ''")).

Definition print (w : World) (s : string) : World :=
  MkWorld (files w) (written w) (stdout w ++ [s])%list (faults w).

Section Driver.

(** The directory of the script. *)
Variable BASE_DIR : string.

Definition SOURCE_DIR : string := OsPath.join BASE_DIR "src".
Definition TARGET_DIR : string := OsPath.join BASE_DIR "template".

(** The driver returns the final world and how it ended; an exception
    leaves the world as it was when it was raised.
    [os.path.relpath(output_path, TARGET_DIR)] is ["template.yaml"]. *)
Definition process_templates (w : World) : World * result unit :=
  let template_path := OsPath.join SOURCE_DIR "template.yaml" in
  let output_path := OsPath.join TARGET_DIR "template.yaml" in
  let relative_output_path := "template.yaml" in
  match read_file_content (files w) template_path with
  | Raised e => (w, Raised e)
  | Returned yaml_content =>
      match generate_processed_content (files w) SOURCE_DIR yaml_content with
      | Raised e => (w, Raised e)
      | Returned processed_content =>
          match save_yaml_template w processed_content output_path with
          | (w1, Raised e) => (w1, Raised e)
          | (w1, Returned _) =>
              let w2 :=
                print w1
                  (nl ++ "---" ++ nl ++ "Template generated at "
                   ++ TARGET_DIR ++ "/" ++ relative_output_path ++ "."
                   ++ nl ++ "---") in
              (w2, Returned tt)
          end
      end
  end.

End Driver.

End Cfngen.

Import Cfngen.

(* ================================================================== *)
(** * The notions the specification speaks in *)
(* ================================================================== *)

Module Spec.

(** The number of leading whitespace characters of a line. *)
Fixpoint leading_whitespace (s : string) : nat :=
  match s with
  | "" => 0
  | String c s' => if isspace c then S (leading_whitespace s') else 0
  end.

(** A blank line: empty or whitespace only. *)
Definition blank (s : string) : bool := all_chars isspace s.

(** A character other than the line terminator. *)
Definition not_newline (c : ascii) : bool := negb (Ascii.eqb c newline).

(** A template line: one line of text, with its terminator or, on the
    last line of a file, without one. *)
Fixpoint template_line (s : string) : bool :=
  match s with
  | "" => true
  | String c "" => true
  | String c s' => not_newline c && template_line s'
  end.

(** The lines of a file as they are read: every line but the last one
    carries its terminator. *)
Fixpoint file_lines (l : list string) : bool :=
  match l with
  | [] => true
  | [x] => true
  | x :: l' => endswith x nl && file_lines l'
  end.

(** A line with its trailing newline, if it has one, replaced. *)
Fixpoint replace_trailing_newline (s new : string) : string :=
  match s with
  | "" => ""
  | String c "" => if Ascii.eqb c newline then new else s
  | String c s' => String c (replace_trailing_newline s' new)
  end.

(** A line that ends with a newline, one being added if it is missing. *)
Definition terminated (s : string) : string :=
  if endswith s nl then s else s ++ nl.

(** The content with a terminated last line. *)
Fixpoint terminate_last (l : list string) : list string :=
  match l with
  | [] => []
  | [x] => [terminated x]
  | x :: l' => x :: terminate_last l'
  end.

(** A content line as it is emitted under an indentation. *)
Definition emit (indent_width : Z) (line : string) : string :=
  if blank line then nl else spaces indent_width ++ line.

(** A multi-line referenced file that is not empty or blank. *)
Definition multi_line (content : list string) : Prop :=
  2 <= List.length content /\ forallb blank content = false.

(** The format the expander takes a referenced name to have. *)
Definition yaml_name (file_name : string) : bool :=
  mem (lower (lstrip_char "." (snd (OsPath.splitext file_name))))
      ["yaml"; "yml"].

(** The placeholder token: a double quote, two opening braces, optional
    whitespace, a name without whitespace, a dot, an extension of word
    characters, optional whitespace, two closing braces, a double quote. *)
Definition placeholder_shaped (tok : string) : Prop :=
  exists ws1 name ext ws2,
    tok = dq ++ "{{" ++ ws1 ++ name ++ "." ++ ext ++ ws2 ++ "}}" ++ dq
    /\ all_chars isspace ws1 = true
    /\ name <> "" /\ all_chars notspace name = true
    /\ ext <> "" /\ all_chars isword ext = true
    /\ all_chars isspace ws2 = true.

(** A line with a placeholder-shaped substring. *)
Definition contains_placeholder (line : string) : Prop :=
  exists pre tok post,
    line = pre ++ tok ++ post /\ placeholder_shaped tok.

(** The number of positions of [s] at which [old] occurs. *)
Fixpoint occurrences (old s : string) : nat :=
  (if startswith s old then 1 else 0)
  + match s with
    | "" => 0
    | String _ s' => occurrences old s'
    end.

(** The text each item of a pattern may consume. *)
Definition part_ok (it : item) (g : string) : Prop :=
  match qnt it with
  | One => exists c, g = String c "" /\ cls it c = true
  | Star => all_chars (cls it) g = true
  | Plus => g <> "" /\ all_chars (cls it) g = true
  end.



(** The outcome of expanding one template line. *)
Definition expand_line (fs : FS) (root line : string)
  : result (list string) :=
  match match_placeholder line with
  | Some m =>
      process_placeholder fs root (file_name m) (line_truncated m)
        (indentation m)
  | None => Returned [line]
  end.

(** Deleting the first match only: the remainder is the line without the
    text of the first match, everything else left as it is. *)
Definition deletes_first_match_only (line : string) : Prop :=
  forall m p,
    search pattern line = Some m ->
    match_placeholder line = Some p ->
    line_truncated p = m_pre m ++ m_post m.

(** In-place substitution: the line with the matched token replaced, where
    it stands, by the content. *)
Definition spliced_in_place (m : Match) (content : string) : string :=
  m_pre m ++ content ++ m_post m.

(** An expansion that fails. *)
Definition expansion_fails (fs : FS) (root line : string) : Prop :=
  exists e, expand_line fs root line = Raised e.

(** An expansion that succeeds. *)
Definition expansion_succeeds (fs : FS) (root line : string) : Prop :=
  exists out, expand_line fs root line = Returned out.

(** A text in which the character [d] does not occur. *)
Definition lacks (d : ascii) (s : string) : bool :=
  all_chars (fun c => negb (Ascii.eqb c d)) s.

(** The placeholder token with the given whitespace, name and extension. *)
Definition token (ws1 name ext ws2 : string) : string :=
  dq ++ "{{" ++ ws1 ++ name ++ "." ++ ext ++ ws2 ++ "}}" ++ dq.

(** The part of a path before its last component: empty, or a text that
    ends with a slash. *)
Definition directory_prefix (dirp : string) : Prop :=
  dirp = "" \/ exists d, dirp = d ++ "/".

(** How a content line and the line emitted for it are related: a blank
    line gives a bare newline, any other line is shifted to the right by
    the indent width and keeps its text. *)
Definition shifted (n : Z) (line o : string) : Prop :=
  if blank line then o = nl
  else leading_whitespace o = Z.to_nat n + leading_whitespace line
       /\ lstrip o = lstrip line.

(** The YAML expansion for every name whose extension token, the word
    characters after its last dot, is yaml or yml: the first line
    emitted is the remainder as it is. *)
Definition yaml_by_extension_token (fs : FS) (root name rem : string)
    (n : Z) : Prop :=
  forall stem ext content,
    name = stem ++ "." ++ ext ->
    ext <> "" -> all_chars isword ext = true ->
    mem (lower ext) ["yaml"; "yml"] = true ->
    fs (OsPath.join root name) = Some content ->
    multi_line content ->
    exists out,
      process_placeholder fs root name rem n = Returned out
      /\ hd "" out = rem.

(** A character that ends no line. *)
Definition plain_char (c : ascii) : bool :=
  negb (Ascii.eqb c newline) && negb (Ascii.eqb c "013").

(** A line with its terminator: characters that end no line, then a
    newline. *)
Fixpoint terminated_line (s : string) : bool :=
  match s with
  | "" => false
  | String c "" => Ascii.eqb c newline
  | String c s' => plain_char c && terminated_line s'
  end.

(** The lines of a file as reading yields them: terminated lines, the
    last one possibly a non-empty line without terminator. *)
Fixpoint read_lines (l : list string) : bool :=
  match l with
  | [] => true
  | [x] => terminated_line x || (truthy x && all_chars plain_char x)
  | x :: l' => terminated_line x && read_lines l'
  end.

End Spec.

Import Spec.

(* ================================================================== *)
(** * Sample directories *)
(* ================================================================== *)

Module Samples.

(** A directory [d] with a one-line text file, a three-line text file
    whose last line has no terminator, a YAML file that starts with a
    document-start marker, one that does not, an empty file and a file
    of blank lines. *)
Definition dir : FS := fun p =>
  if String.eqb p "d/v.txt" then Some ["hello" ++ nl]
  else if String.eqb p "d/items.txt" then
    Some ["a" ++ nl; "  " ++ nl; "b"]
  else if String.eqb p "d/spec.yaml" then
    Some ["---" ++ nl; "foo: bar" ++ nl; "baz: 1"]
  else if String.eqb p "d/plain.YML" then
    Some ["foo: bar" ++ nl; nl; "baz: 1" ++ nl]
  else if String.eqb p "d/e.txt" then Some []
  else if String.eqb p "d/w.txt" then Some [" " ++ nl; nl]
  else None.

(** A script directory whose template references a missing file. *)
Definition broken_world : World :=
  MkWorld
    (fun p =>
       if String.eqb p "/app/src/template.yaml" then
         Some [ "a: 1" ++ nl;
                "b: " ++ quoted "{{ gone.txt }}" ++ nl;
                "c: 3" ++ nl ]
       else None)
    [] [] (fun _ => NoFault).

(** A script directory whose template expands. *)
Definition good_world : World :=
  MkWorld
    (fun p =>
       if String.eqb p "/app/src/template.yaml" then
         Some ["a: 1" ++ nl; "b: " ++ quoted "{{ v.txt }}" ++ nl]
       else if String.eqb p "/app/src/v.txt" then Some ["hello" ++ nl]
       else None)
    [] [] (fun _ => NoFault).

(** The directory of [Samples.dir] with a terminated last line in
    [items.txt]. *)
Definition dir_terminated : FS := fun p =>
  if String.eqb p "d/items.txt" then
    Some ["a" ++ nl; "  " ++ nl; "b" ++ nl]
  else dir p.

(** A script directory whose template has no placeholder. *)
Definition plain_world : World :=
  MkWorld
    (fun p =>
       if String.eqb p "/app/src/template.yaml" then
         Some ["a: 1" ++ nl; "b: {{ v.txt }}" ++ nl; "c: 3"]
       else None)
    [("/app/template/old.yaml", "x: 0")] [] (fun _ => NoFault).

(** A directory [d] whose subdirectory [conf] holds a file named with
    nothing but an extension. *)
Definition dotted : FS := fun p =>
  if String.eqb p "d/conf/.yaml" then Some ["a: 1" ++ nl; "b: 2" ++ nl]
  else None.

End Samples.

(* ================================================================== *)
(** * Facts about the string primitives *)
(* ================================================================== *)

Module StrFacts.

Lemma app_nil_r (s : string) : s ++ "" = s.
Proof. induction s as [|c s IH]; simpl; [reflexivity | now rewrite IH]. Qed.

Lemma app_assoc (a b c : string) : (a ++ b) ++ c = a ++ b ++ c.
Proof. induction a as [|x a IH]; simpl; [reflexivity | now rewrite IH]. Qed.

Lemma length_app (a b : string) :
  String.length (a ++ b) = String.length a + String.length b.
Proof. induction a as [|x a IH]; simpl; [reflexivity | now rewrite IH]. Qed.

Lemma all_chars_app (p : ascii -> bool) (a b : string) :
  all_chars p (a ++ b) = all_chars p a && all_chars p b.
Proof.
  induction a as [|x a IH]; simpl; [reflexivity|].
  rewrite IH. now rewrite andb_assoc.
Qed.

Lemma truthy_false (s : string) : truthy s = false <-> s = "".
Proof. destruct s; simpl; split; intros H; congruence. Qed.

Lemma truthy_true (s : string) : truthy s = true <-> s <> "".
Proof. destruct s; simpl; split; intros H; congruence. Qed.

(** ** Stripping and blank lines *)

Lemma lstrip_blank (s : string) : lstrip s = "" <-> blank s = true.
Proof.
  unfold blank. induction s as [|c s IH]; simpl.
  - tauto.
  - destruct (isspace c); simpl; [exact IH|].
    split; intros H; discriminate H.
Qed.

Lemma blank_rstrip (s : string) : blank (rstrip s) = blank s.
Proof.
  unfold blank. induction s as [|c s IH]; simpl; [reflexivity|].
  destruct (rstrip s) as [|a r] eqn:E.
  - simpl in IH. rewrite <- IH.
    destruct (isspace c) eqn:Ec; simpl; now rewrite ?Ec.
  - rewrite <- IH. reflexivity.
Qed.

Lemma strip_blank (s : string) : strip s = "" <-> blank s = true.
Proof.
  unfold strip. rewrite lstrip_blank, blank_rstrip. tauto.
Qed.

Lemma strip_eqb_blank (s : string) : String.eqb (strip s) "" = blank s.
Proof.
  destruct (blank s) eqn:E.
  - apply String.eqb_eq, strip_blank, E.
  - apply String.eqb_neq. intros H. apply strip_blank in H. congruence.
Qed.

Lemma truthy_strip (s : string) : truthy (strip s) = negb (blank s).
Proof.
  destruct (blank s) eqn:E; simpl.
  - apply truthy_false, strip_blank, E.
  - apply truthy_true. intros H. apply strip_blank in H. congruence.
Qed.

Lemma truthy_lstrip (s : string) : truthy (lstrip s) = negb (blank s).
Proof.
  destruct (blank s) eqn:E; simpl.
  - apply truthy_false, lstrip_blank, E.
  - apply truthy_true. intros H. apply lstrip_blank in H. congruence.
Qed.

Lemma length_lstrip (s : string) :
  String.length s = leading_whitespace s + String.length (lstrip s).
Proof.
  induction s as [|c s IH]; simpl; [reflexivity|].
  destruct (isspace c); simpl; [now rewrite IH | reflexivity].
Qed.

(** ** Prefixes and suffixes *)

Lemma startswith_app (p t : string) : startswith (p ++ t) p = true.
Proof.
  induction p as [|a p IH]; simpl; [reflexivity|].
  now rewrite Ascii.eqb_refl, IH.
Qed.

Lemma startswith_split (s p : string) :
  startswith s p = true -> exists t, s = p ++ t.
Proof.
  revert s. induction p as [|a p IH]; intros s H; simpl in *.
  - now exists s.
  - destruct s as [|b s]; [discriminate|].
    apply andb_prop in H as [Hab Hs].
    apply Ascii.eqb_eq in Hab. subst b.
    destruct (IH _ Hs) as [t ->]. now exists t.
Qed.

Lemma endswith_app (b suf : string) : endswith (b ++ suf) suf = true.
Proof.
  induction b as [|c b IH]; simpl.
  - destruct suf; simpl; [reflexivity|].
    now rewrite Ascii.eqb_refl, String.eqb_refl.
  - rewrite IH. apply orb_true_r.
Qed.

Lemma endswith_cons (c : ascii) (s suf : string) :
  endswith (String c s) suf
  = String.eqb (String c s) suf || endswith s suf.
Proof. reflexivity. Qed.

Lemma endswith_split (s suf : string) :
  endswith s suf = true -> exists b, s = b ++ suf.
Proof.
  induction s as [|c s IH]; intros H.
  - simpl in H. apply orb_prop in H as [H|H]; [|discriminate].
    destruct suf; [|discriminate]. now exists "".
  - rewrite endswith_cons in H. apply orb_prop in H as [H|H].
    + apply String.eqb_eq in H. exists "". now rewrite <- H.
    + destruct (IH H) as [b ->]. now exists (String c b).
Qed.

Lemma terminated_ends (s : string) : endswith (terminated s) nl = true.
Proof.
  unfold terminated. destruct (endswith s nl) eqn:E; [exact E|].
  apply endswith_app.
Qed.

(** ** Replacement *)

Lemma interleave_nil (s : string) : interleave "" s = s.
Proof. induction s as [|c s IH]; simpl; [reflexivity | now rewrite IH]. Qed.

(** Replacing a one-character [old] looks at one character at a time. *)
Lemma replace_char_step (d c : ascii) (new s : string) :
  replace (String c s) (String d "") new =
  if Ascii.eqb d c then new ++ replace s (String d "") new
  else String c (replace s (String d "") new).
Proof.
  unfold replace. simpl. destruct (Ascii.eqb d c); reflexivity.
Qed.

Lemma replace_nil (d : ascii) (new : string) :
  replace "" (String d "") new = "".
Proof. reflexivity. Qed.

(** A text without newline is left as it is. *)
Lemma replace_newline_absent (s new : string) :
  all_chars not_newline s = true -> replace s nl new = s.
Proof.
  unfold nl. induction s as [|c s IH]; intros H.
  - reflexivity.
  - simpl in H. apply andb_prop in H as [Hc Hs].
    rewrite replace_char_step. unfold not_newline in Hc.
    rewrite Ascii.eqb_sym in Hc.
    destruct (Ascii.eqb newline c); [discriminate|].
    now rewrite IH.
Qed.

(** On a template line only the terminator is replaced. *)
Lemma replace_newline_line (s new : string) :
  template_line s = true ->
  replace s nl new = replace_trailing_newline s new.
Proof.
  unfold nl. induction s as [|c s IH]; intros H.
  - reflexivity.
  - rewrite replace_char_step. destruct s as [|c2 s].
    + rewrite replace_nil. cbn [replace_trailing_newline].
      rewrite (Ascii.eqb_sym c newline).
      destruct (Ascii.eqb newline c); [apply app_nil_r | reflexivity].
    + change (not_newline c && template_line (String c2 s) = true) in H.
      apply andb_prop in H as [Hc Hs].
      unfold not_newline in Hc. rewrite Ascii.eqb_sym in Hc.
      destruct (Ascii.eqb newline c); [discriminate|].
      rewrite (IH Hs). reflexivity.
Qed.

(** A template line without terminator has no newline at all. *)
Lemma eqb_single_nl (c : ascii) :
  String.eqb (String c "") nl = Ascii.eqb c newline.
Proof.
  unfold nl. cbn [String.eqb]. destruct (Ascii.eqb c newline); reflexivity.
Qed.

Lemma unterminated_line (s : string) :
  template_line s = true -> endswith s nl = false ->
  all_chars not_newline s = true.
Proof.
  induction s as [|c s IH]; intros Ht He; [reflexivity|].
  rewrite endswith_cons in He. apply orb_false_elim in He as [He1 He2].
  destruct s as [|c2 s].
  - cbn [all_chars]. rewrite andb_true_r. unfold not_newline.
    rewrite eqb_single_nl in He1. now rewrite He1.
  - change (not_newline c && template_line (String c2 s) = true) in Ht.
    apply andb_prop in Ht as [Hc Hs].
    change (not_newline c && all_chars not_newline (String c2 s) = true).
    rewrite Hc. apply IH; assumption.
Qed.

Lemma replace_trailing_absent (s new : string) :
  endswith s nl = false -> replace_trailing_newline s new = s.
Proof.
  induction s as [|c s IH]; intros He; [reflexivity|].
  rewrite endswith_cons in He. apply orb_false_elim in He as [He1 He2].
  destruct s as [|c2 s].
  - cbn [replace_trailing_newline]. rewrite eqb_single_nl in He1.
    now rewrite He1.
  - change (String c (replace_trailing_newline (String c2 s) new)
            = String c (String c2 s)).
    now rewrite IH.
Qed.

Lemma replace_trailing_present (b new : string) :
  replace_trailing_newline (b ++ nl) new = b ++ new.
Proof.
  induction b as [|c b IH].
  - reflexivity.
  - change (replace_trailing_newline (String c (b ++ nl)) new
            = String c (b ++ new)).
    destruct (b ++ nl) as [|c2 t] eqn:E.
    + destruct b; discriminate E.
    + change (String c (replace_trailing_newline (String c2 t) new)
              = String c (b ++ new)).
      now rewrite IH.
Qed.

(** Deleting occurrences keeps every character in its class. *)
Lemma delete_from_all (p : ascii -> bool) (old : string) (k : nat)
    (s : string) :
  all_chars p s = true -> all_chars p (replace_from old "" k s) = true.
Proof.
  revert k. induction s as [|c s IH]; intros k H; [reflexivity|].
  simpl in H. apply andb_prop in H as [Hc Hs]. simpl.
  destruct k as [|k]; [|now apply IH].
  destruct (startswith (String c s) old); simpl.
  - now apply IH.
  - rewrite Hc. now apply IH.
Qed.

Lemma delete_all (p : ascii -> bool) (s old : string) :
  all_chars p s = true -> all_chars p (replace s old "") = true.
Proof.
  intros H. unfold replace. destruct old.
  - now rewrite interleave_nil.
  - now apply delete_from_all.
Qed.

Lemma template_line_cons (c : ascii) (r : string) :
  not_newline c = true -> template_line r = true ->
  template_line (String c r) = true.
Proof.
  intros Hc Hr. destruct r as [|c2 r]; [reflexivity|].
  change (not_newline c && template_line (String c2 r) = true).
  now rewrite Hc, Hr.
Qed.

(** Deleting occurrences from a template line leaves a template line. *)
Lemma delete_from_line (old : string) (k : nat) (s : string) :
  template_line s = true ->
  template_line (replace_from old "" k s) = true.
Proof.
  revert k. induction s as [|c s IH]; intros k H; [reflexivity|].
  destruct s as [|c2 s].
  - cbn [replace_from]. destruct k; [|reflexivity].
    destruct (startswith (String c "") old); reflexivity.
  - change (not_newline c && template_line (String c2 s) = true) in H.
    apply andb_prop in H as [Hc Hs].
    change (replace_from old "" k (String c (String c2 s)))
      with (match k with
            | S k' => replace_from old "" k' (String c2 s)
            | O =>
                if startswith (String c (String c2 s)) old
                then "" ++ replace_from old "" (String.length old - 1)
                             (String c2 s)
                else String c (replace_from old "" 0 (String c2 s))
            end).
    destruct k as [|k]; [|now apply IH].
    destruct (startswith (String c (String c2 s)) old).
    + now apply IH.
    + apply template_line_cons; [exact Hc | now apply IH].
Qed.

Lemma delete_line (s old : string) :
  template_line s = true -> template_line (replace s old "") = true.
Proof.
  intros H. unfold replace. destruct old.
  - now rewrite interleave_nil.
  - now apply delete_from_line.
Qed.

(** A text without newline followed by a newline is a template line. *)
Lemma template_line_terminated (body : string) :
  all_chars not_newline body = true -> template_line (body ++ nl) = true.
Proof.
  induction body as [|c body IH]; intros H; [reflexivity|].
  cbn [all_chars] in H. apply andb_prop in H as [Hc Hb].
  change (String c body ++ nl) with (String c (body ++ nl)).
  apply template_line_cons; [exact Hc | now apply IH].
Qed.

(** [" " * n] is [n] spaces. *)
Lemma spaces_spec (n : Z) :
  String.length (spaces n) = Z.to_nat n
  /\ all_chars (Ascii.eqb " ") (spaces n) = true.
Proof.
  unfold spaces. induction (Z.to_nat n) as [|k [IH1 IH2]]; [now split|].
  split; simpl; [now rewrite IH1 | exact IH2].
Qed.

Lemma replace_from_skip (old new x y : string) :
  replace_from old new (String.length x) (x ++ y)
  = replace_from old new 0 y.
Proof.
  induction x as [|c x IH]; simpl; [|exact IH].
  destruct y; reflexivity.
Qed.

Lemma occurrences_suffix (old x y : string) :
  occurrences old (x ++ y) = 0 -> occurrences old y = 0.
Proof.
  induction x as [|c x IH]; simpl; intros H; [exact H|].
  apply IH. lia.
Qed.

Lemma occurrences_present (old x y : string) :
  1 <= occurrences old (x ++ old ++ y).
Proof.
  induction x as [|c x IH].
  - simpl (""  ++ _). destruct (old ++ y) eqn:E; simpl;
      (rewrite <- E at 1 || rewrite <- E); rewrite startswith_app; lia.
  - simpl. lia.
Qed.

Lemma replace_from_absent (old new s : string) :
  occurrences old s = 0 -> replace_from old new 0 s = s.
Proof.
  induction s as [|c s IH]; intros H; [reflexivity|].
  simpl in H.
  change (replace_from old new 0 (String c s))
    with (if startswith (String c s) old
          then new ++ replace_from old new (String.length old - 1) s
          else String c (replace_from old new 0 s)).
  destruct (startswith (String c s) old); [lia|].
  rewrite IH; [reflexivity | lia].
Qed.

(** A text that occurs once is deleted where it stands. *)
Lemma delete_once (pre old post : string) :
  old <> "" ->
  occurrences old (pre ++ old ++ post) = 1 ->
  replace (pre ++ old ++ post) old "" = pre ++ post.
Proof.
  intros Hne. unfold replace. destruct old as [|a old']; [congruence|].
  set (old := String a old') in *.
  induction pre as [|c pre IH]; intros H.
  - change ("" ++ old ++ post) with (String a (old' ++ post)) in *.
    change (occurrences old (String a (old' ++ post)))
      with ((if startswith (old ++ post) old then 1 else 0)
            + occurrences old (old' ++ post)) in H.
    rewrite startswith_app in H.
    change (replace_from old "" 0 (String a (old' ++ post)))
      with (if startswith (old ++ post) old
            then "" ++ replace_from old ""
                         (String.length old - 1) (old' ++ post)
            else String a (replace_from old "" 0 (old' ++ post))).
    rewrite startswith_app.
    replace (String.length old - 1) with (String.length old')
      by (unfold old; simpl; lia).
    rewrite replace_from_skip. simpl.
    apply replace_from_absent.
    apply occurrences_suffix with (x := old'). lia.
  - change (String c pre ++ old ++ post)
      with (String c (pre ++ old ++ post)) in *.
    change (occurrences old (String c (pre ++ old ++ post)))
      with ((if startswith (String c (pre ++ old ++ post)) old
             then 1 else 0)
            + occurrences old (pre ++ old ++ post)) in H.
    pose proof (occurrences_present old pre post) as Hp.
    change (replace_from old "" 0 (String c (pre ++ old ++ post)))
      with (if startswith (String c (pre ++ old ++ post)) old
            then "" ++ replace_from old ""
                         (String.length old - 1) (pre ++ old ++ post)
            else String c (replace_from old "" 0 (pre ++ old ++ post))).
    destruct (startswith (String c (pre ++ old ++ post)) old); [lia|].
    rewrite IH; [reflexivity | lia].
Qed.

End StrFacts.

(* ================================================================== *)
(** * Facts about matching *)
(* ================================================================== *)

Module ReFacts.

Import StrFacts.

Definition sound_cont (pat : list item)
    (k : string -> option (list string * string)) : Prop :=
  forall s gs r, k s = Some (gs, r) ->
    s = concat_all gs ++ r /\ Forall2 part_ok pat gs.

Lemma star_sound (p : ascii -> bool) (pat : list item)
    (k : string -> option (list string * string)) :
  sound_cont pat k ->
  forall s g gs r, star p k s = Some (g, gs, r) ->
    s = g ++ concat_all gs ++ r
    /\ all_chars p g = true /\ Forall2 part_ok pat gs.
Proof.
  intros Hk. induction s as [|c s IH]; intros g gs r H; simpl in H.
  - destruct (k "") as [[gs0 r0]|] eqn:E; [|discriminate].
    inversion H; subst. destruct (Hk _ _ _ E) as [E1 E2]. auto.
  - destruct (p c) eqn:Hp.
    + destruct (star p k s) as [[[g1 gs1] r1]|] eqn:Es.
      * inversion H; subst.
        destruct (IH _ _ _ eq_refl) as (E1 & E2 & E3).
        simpl. rewrite Hp, E2. rewrite E1 at 1. auto.
      * destruct (k (String c s)) as [[gs0 r0]|] eqn:E; [|discriminate].
        inversion H; subst. destruct (Hk _ _ _ E) as [E1 E2]. auto.
    + destruct (k (String c s)) as [[gs0 r0]|] eqn:E; [|discriminate].
      inversion H; subst. destruct (Hk _ _ _ E) as [E1 E2]. auto.
Qed.

(** What the matcher returns is a decomposition of the input in which
    every item consumed a text of its class. *)
Lemma match_here_sound (pat : list item) :
  sound_cont pat (match_here pat).
Proof.
  induction pat as [|[p q] pat IH]; intros s gs r H.
  - simpl in H. inversion H; subst. split; [reflexivity | constructor].
  - destruct q; simpl in H.
    + destruct s as [|c s]; [discriminate|].
      destruct (p c) eqn:Hp; [|discriminate].
      destruct (match_here pat s) as [[gs0 r0]|] eqn:E; [|discriminate].
      inversion H; subst. destruct (IH _ _ _ E) as [E1 E2].
      split; [simpl; now rewrite E1|].
      constructor; [|exact E2]. exists c. auto.
    + destruct (star p (match_here pat) s) as [[[g gs0] r0]|] eqn:E;
        [|discriminate].
      inversion H; subst.
      destruct (star_sound p pat _ IH _ _ _ _ E) as (E1 & E2 & E3).
      split; [simpl; now rewrite app_assoc|].
      constructor; [exact E2 | exact E3].
    + destruct s as [|c s]; [discriminate|].
      destruct (p c) eqn:Hp; [|discriminate].
      destruct (star p (match_here pat) s) as [[[g gs0] r0]|] eqn:E;
        [|discriminate].
      inversion H; subst.
      destruct (star_sound p pat _ IH _ _ _ _ E) as (E1 & E2 & E3).
      split; [simpl; now rewrite app_assoc, E1|].
      constructor; [|exact E3].
      split; [discriminate|]. simpl. now rewrite Hp, E2.
Qed.

Lemma star_fallback (p : ascii -> bool)
    (k : string -> option (list string * string)) (s : string) :
  k s <> None -> star p k s <> None.
Proof.
  intros H. destruct s as [|c s]; simpl.
  - destruct (k "") as [[gs r]|]; congruence.
  - destruct (p c); [destruct (star p k s) as [[[g gs] r]|]|];
      try congruence;
      destruct (k (String c s)) as [[gs r]|]; congruence.
Qed.

Lemma star_complete (p : ascii -> bool)
    (k : string -> option (list string * string)) (g t : string) :
  all_chars p g = true -> k t <> None -> star p k (g ++ t) <> None.
Proof.
  intros Hg Hk. induction g as [|c g IH].
  - now apply star_fallback.
  - simpl in Hg. apply andb_prop in Hg as [Hc Hg]. simpl. rewrite Hc.
    specialize (IH Hg).
    destruct (star p k (g ++ t)) as [[[g1 gs] r]|]; congruence.
Qed.

(** Backtracking is exhaustive: when the input starts with some text of
    the pattern's shape, the matcher finds a match. *)
Lemma match_here_complete (pat : list item) (gs : list string)
    (r : string) :
  Forall2 part_ok pat gs -> match_here pat (concat_all gs ++ r) <> None.
Proof.
  induction 1 as [|[p q] g pat gs Hg Hrest IH]; [discriminate|].
  unfold part_ok in Hg. simpl in Hg.
  change (concat_all (g :: gs)) with (g ++ concat_all gs).
  rewrite app_assoc. destruct q.
  - destruct Hg as (c & -> & Hc). simpl. rewrite Hc.
    destruct (match_here pat (concat_all gs ++ r)) as [[gs0 r0]|];
      congruence.
  - simpl.
    pose proof (star_complete p (match_here pat) g _ Hg IH) as Hs.
    destruct (star p (match_here pat) (g ++ concat_all gs ++ r))
      as [[[g1 gs1] r1]|]; congruence.
  - destruct Hg as [Hne Hg]. destruct g as [|c g]; [congruence|].
    simpl in Hg. apply andb_prop in Hg as [Hc Hg]. simpl. rewrite Hc.
    pose proof (star_complete p (match_here pat) g _ Hg IH) as Hs.
    destruct (star p (match_here pat) (g ++ concat_all gs ++ r))
      as [[[g1 gs1] r1]|]; congruence.
Qed.

(** A match found by [search] splits the input around a text of the
    pattern's shape. *)
Lemma search_sound (pat : list item) (s : string) (m : Match) :
  search pat s = Some m ->
  s = m_pre m ++ group0 m ++ m_post m
  /\ Forall2 part_ok pat (m_parts m).
Proof.
  revert m. induction s as [|c s IH]; intros m H; simpl in H.
  - destruct (match_here pat "") as [[gs r]|] eqn:E; [|discriminate].
    inversion H; subst. apply match_here_sound in E. exact E.
  - destruct (match_here pat (String c s)) as [[gs r]|] eqn:E.
    + inversion H; subst. apply match_here_sound in E. exact E.
    + destruct (search pat s) as [m0|] eqn:Es; [|discriminate].
      inversion H; subst. destruct (IH _ eq_refl) as [E1 E2].
      split; [|exact E2]. simpl. unfold group0 in *. simpl.
      now rewrite <- E1.
Qed.

(** No match starts before the one [search] returns. *)
Lemma search_leftmost (pat : list item) (s : string) (m : Match) :
  search pat s = Some m ->
  forall a b, m_pre m = a ++ b -> b <> "" ->
    match_here pat (b ++ group0 m ++ m_post m) = None.
Proof.
  revert m. induction s as [|c s IH]; intros m H a b Hab Hb; simpl in H.
  - destruct (match_here pat "") as [[gs r]|] eqn:E; [|discriminate].
    inversion H; subst. simpl in Hab.
    destruct a; destruct b; simpl in Hab; congruence.
  - destruct (match_here pat (String c s)) as [[gs r]|] eqn:E.
    + inversion H; subst. simpl in Hab.
      destruct a; destruct b; simpl in Hab; congruence.
    + destruct (search pat s) as [m0|] eqn:Es; [|discriminate].
      inversion H; subst. simpl in Hab. unfold group0. simpl.
      destruct (search_sound _ _ _ Es) as [E1 _].
      destruct a as [|x a]; simpl in Hab.
      * subst b. simpl. unfold group0 in E1. now rewrite <- E1.
      * inversion Hab; subst.
        apply (IH m0 eq_refl a b); [assumption | assumption].
Qed.

(** When [search] finds nothing the pattern matches at no position. *)
Lemma search_none (pat : list item) (s : string) :
  search pat s = None ->
  forall a b, s = a ++ b -> match_here pat b = None.
Proof.
  induction s as [|c s IH]; intros H a b Hab; simpl in H.
  - destruct (match_here pat "") as [[gs r]|] eqn:E; [discriminate|].
    destruct a; destruct b; simpl in Hab; congruence.
  - destruct (match_here pat (String c s)) as [[gs r]|] eqn:E;
      [discriminate|].
    destruct (search pat s) as [m0|] eqn:Es; [discriminate|].
    destruct a as [|x a]; simpl in Hab.
    + now subst b.
    + inversion Hab; subst. now apply (IH eq_refl a b).
Qed.

End ReFacts.

(* ================================================================== *)
(** * Facts about the expander *)
(* ================================================================== *)

Module ExpanderFacts.

Import StrFacts.

Lemma forallb_strip (content : list string) :
  forallb (fun line => String.eqb (strip line) "") content
  = forallb blank content.
Proof.
  induction content as [|x l IH]; simpl; [reflexivity|].
  now rewrite strip_eqb_blank, IH.
Qed.

(** The repair of the last line ends it with a newline. *)
Lemma repair_last (content : list string) :
  (if negb (endswith (last content "") nl)
   then append_to_last content nl
   else content)
  = terminate_last content.
Proof.
  induction content as [|x l IH]; [now destruct (negb _)|].
  destruct l as [|y l].
  - cbn [last append_to_last terminate_last]. unfold terminated.
    now destruct (endswith x nl).
  - change (last (x :: y :: l) "") with (last (y :: l) "").
    change (append_to_last (x :: y :: l) nl)
      with (x :: append_to_last (y :: l) nl).
    change (terminate_last (x :: y :: l))
      with (x :: terminate_last (y :: l)).
    rewrite <- IH. now destruct (negb _).
Qed.

Lemma fold_append_map (f : string -> string) (content acc : list string) :
  fold_left (fun acc line => (acc ++ [f line])%list) content acc
  = (acc ++ map f content)%list.
Proof.
  revert acc. induction content as [|x l IH]; intros acc; simpl.
  - now rewrite List.app_nil_r.
  - rewrite IH, <- List.app_assoc. reflexivity.
Qed.

Lemma emit_strip (n : Z) (line : string) :
  (if truthy (strip line) then spaces n ++ line else nl) = emit n line.
Proof.
  unfold emit. rewrite truthy_strip. now destruct (blank line).
Qed.

Lemma emit_lstrip (n : Z) (line : string) :
  (if truthy (lstrip line) then spaces n ++ line else nl) = emit n line.
Proof.
  unfold emit. rewrite truthy_lstrip. now destruct (blank line).
Qed.

Lemma terminate_last_length (content : list string) :
  List.length (terminate_last content) = List.length content.
Proof.
  induction content as [|x [|y l] IH]; try reflexivity.
  change (S (List.length (terminate_last (y :: l)))
          = S (List.length (y :: l))).
  now rewrite IH.
Qed.

Lemma terminate_last_snoc (l : list string) (x : string) :
  terminate_last (l ++ [x])%list = (l ++ [terminated x])%list.
Proof.
  induction l as [|y l IH]; [reflexivity|].
  change ((y :: l) ++ [x])%list with (y :: (l ++ [x]))%list.
  destruct (l ++ [x])%list as [|z t] eqn:E.
  - destruct l; discriminate E.
  - change (terminate_last (y :: z :: t))
      with (y :: terminate_last (z :: t)).
    rewrite IH. reflexivity.
Qed.

(** The repair touches the last line only. *)
Lemma terminate_last_removelast (content : list string) :
  content <> [] ->
  terminate_last content
  = (removelast content ++ [terminated (last content "")])%list.
Proof.
  intros H. rewrite (app_removelast_last "" H) at 1.
  apply terminate_last_snoc.
Qed.

(** Every line of a repaired file ends with a newline. *)
Lemma terminate_last_ends (content : list string) :
  file_lines content = true ->
  Forall (fun line => endswith line nl = true) (terminate_last content).
Proof.
  induction content as [|x [|y l] IH]; intros H.
  - constructor.
  - constructor; [apply terminated_ends | constructor].
  - change (endswith x nl && file_lines (y :: l) = true) in H.
    apply andb_prop in H as [Hx Hl].
    change (terminate_last (x :: y :: l))
      with (x :: terminate_last (y :: l)).
    constructor; [exact Hx | now apply IH].
Qed.

Lemma emit_ends (n : Z) (line : string) :
  endswith line nl = true -> endswith (emit n line) nl = true.
Proof.
  intros H. unfold emit. destruct (blank line); [reflexivity|].
  apply endswith_split in H as [b ->].
  rewrite <- app_assoc. apply endswith_app.
Qed.

(** The expander, case by case. *)
Lemma process_placeholder_cases (fs : FS)
    (root name rem : string) (n : Z) :
  process_placeholder fs root name rem n =
  match fs (OsPath.join root name) with
  | None =>
      Raised (FileNotFoundError
                ("File '" ++ OsPath.join root name ++ "' not found."))
  | Some content =>
      if forallb blank content then
        Raised (EmptyFileError
                  ("File '" ++ OsPath.join root name ++ "' is empty."))
      else
        match content with
        | [x] => Returned [replace rem nl (replace x nl "" ++ nl)]
        | _ =>
            if yaml_name name then
              Returned
                (rem :: map (emit n)
                   (if String.eqb (nth 0 content "") ("---" ++ nl)
                    then tl (terminate_last content)
                    else terminate_last content))
            else
              Returned
                (replace rem nl ("|" ++ nl)
                 :: map (emit n) (terminate_last content))
        end
  end.
Proof.
  unfold process_placeholder, read_file_content.
  destruct (fs (OsPath.join root name)) as [content|];
    [|reflexivity].
  cbn [bind]. rewrite forallb_strip.
  destruct content as [|x [|y l]].
  - reflexivity.
  - rewrite orb_false_l. destruct (forallb blank [x]); reflexivity.
  - rewrite orb_false_l.
    destruct (forallb blank (x :: y :: l)); [reflexivity|].
    change (List.length (x :: y :: l) =? 1)%nat with false.
    cbv iota. rewrite repair_last.
    change (mem (lower (lstrip_char "." (snd (OsPath.splitext name))))
              ["yaml"; "yml"]) with (yaml_name name).
    destruct (yaml_name name).
    + rewrite fold_append_map.
      change (terminate_last (x :: y :: l))
        with (x :: terminate_last (y :: l)).
      change (nth 0 (x :: terminate_last (y :: l)) "") with x.
      change (nth 0 (x :: y :: l) "") with x.
      f_equal. change ([rem] ++ ?t)%list with (rem :: t). f_equal.
      apply map_ext. intros line. apply emit_strip.
    + f_equal. f_equal. apply map_ext. intros line. apply emit_lstrip.
Qed.

End ExpanderFacts.

(* ================================================================== *)
(** * Facts about the locator *)
(* ================================================================== *)

Module LocatorFacts.

Import StrFacts ReFacts.

Ltac part_ok_tac :=
  unfold part_ok, lit; cbn [qnt cls];
  first [ eexists; split; reflexivity
        | split; assumption
        | assumption ].

(** The texts the pattern can consume are the placeholder tokens. *)
Lemma shaped_of_parts (gs : list string) :
  Forall2 part_ok pattern gs -> placeholder_shaped (concat_all gs).
Proof.
  unfold pattern. intros H.
  repeat match goal with
         | H : Forall2 _ (_ :: _) _ |- _ => inversion H; subst; clear H
         | H : Forall2 _ [] _ |- _ => inversion H; subst; clear H
         end.
  repeat match goal with
         | H : part_ok (lit _) _ |- _ =>
             destruct H as (? & -> & H); cbn [lit cls] in H;
             apply Ascii.eqb_eq in H; subst
         | H : part_ok (Item _ Plus) _ |- _ =>
             destruct H as [? ?]
         | H : part_ok (Item _ Star) _ |- _ =>
             unfold part_ok in H; cbn [qnt cls] in H
         end.
  cbn [cls] in *.
  match goal with
  | |- placeholder_shaped
         (concat_all [_; _; _; ?ws1; ?name; _; ?ext; ?ws2; _; _; _]) =>
      exists ws1, name, ext, ws2
  end.
  repeat split; assumption.
Qed.

Lemma parts_of_shaped (tok : string) :
  placeholder_shaped tok ->
  exists gs, Forall2 part_ok pattern gs /\ tok = concat_all gs.
Proof.
  intros (ws1 & name & ext & ws2 & -> & H1 & H2 & H3 & H4 & H5 & H6).
  exists [ dq; "{"; "{"; ws1; name; "."; ext; ws2; "}"; "}"; dq ].
  split.
  - unfold pattern. repeat (constructor; [part_ok_tac|]). constructor.
  - cbn [concat_all]. rewrite app_nil_r. reflexivity.
Qed.

(** The locator misses exactly the lines without a placeholder-shaped
    substring. *)
Lemma match_none_iff (line : string) :
  match_placeholder line = None <-> ~ contains_placeholder line.
Proof.
  unfold match_placeholder. split.
  - destruct (search pattern line) as [m|] eqn:E; [discriminate|].
    intros _ (pre & tok & post & Hline & Htok).
    destruct (parts_of_shaped _ Htok) as (gs & Hgs & ->).
    pose proof (search_none _ _ E pre _ Hline) as Hn.
    now apply (match_here_complete pattern gs post Hgs).
  - intros Hn. destruct (search pattern line) as [m|] eqn:E;
      [|reflexivity].
    exfalso. apply Hn.
    destruct (search_sound _ _ _ E) as [E1 E2].
    exists (m_pre m), (group0 m), (m_post m).
    split; [exact E1 | now apply shaped_of_parts].
Qed.

(** The remainder of a template line is a template line. *)
Lemma remainder_template_line (line : string) (p : placeholder) :
  template_line line = true ->
  match_placeholder line = Some p ->
  template_line (line_truncated p) = true.
Proof.
  unfold match_placeholder. intros Hline H.
  destruct (search pattern line) as [m|]; [|discriminate].
  inversion H; subst; clear H. cbn [line_truncated].
  now apply delete_line.
Qed.

Lemma group0_nonempty (m : Match) :
  Forall2 part_ok pattern (m_parts m) -> group0 m <> "".
Proof.
  intros H. apply shaped_of_parts in H.
  destruct H as (ws1 & name & ext & ws2 & E & _).
  unfold group0. rewrite E. discriminate.
Qed.

End LocatorFacts.

Import StrFacts ReFacts LocatorFacts ExpanderFacts.

(* ================================================================== *)
(** * The locator *)
(* ================================================================== *)

(** C8. For every line in which the locator finds a placeholder, the
    returned indent width is the number of leading whitespace characters
    of the original line plus the constant 2. *)
Theorem indent_width_leading_whitespace_plus_two (line : string)
    (p : placeholder) :
  match_placeholder line = Some p ->
  indentation p = (Z.of_nat (leading_whitespace line) + 2)%Z.
Proof.
  unfold match_placeholder. intros H.
  destruct (search pattern line) as [m|]; [|discriminate].
  inversion H; subst; clear H. cbn [indentation].
  unfold INDENTATION_SIZE. pose proof (length_lstrip line). lia.
Qed.

Lemma indent_width_witness :
  exists p,
    match_placeholder ("    - " ++ quoted "{{ items.txt }}" ++ nl) = Some p
    /\ indentation p = 6%Z.
Proof.
  eexists. split.
  - vm_compute. reflexivity.
  - apply (indent_width_leading_whitespace_plus_two
             ("    - " ++ quoted "{{ items.txt }}" ++ nl)).
    vm_compute. reflexivity.
Defined.

(** C2, as stated, fails on a line that repeats its placeholder: the
    second, identical token is deleted as well. *)
Lemma repeated_placeholder_all_deleted :
  let line := quoted "{{a.b}}" ++ " " ++ quoted "{{a.b}}" ++ nl in
  option_map line_truncated (match_placeholder line) = Some (" " ++ nl)
  /\ ~ deletes_first_match_only line.
Proof.
  split; [vm_compute; reflexivity|].
  intros H.
  specialize (H (MkMatch ""
                   [ dq; "{"; "{"; ""; "a"; "."; "b"; ""; "}"; "}"; dq ]
                   (" " ++ quoted "{{a.b}}" ++ nl))
                (Placeholder (" " ++ nl) "a.b" 2)
                eq_refl eq_refl).
  vm_compute in H. discriminate H.
Qed.

(** C2, amended. When the locator finds a placeholder, the match starts
    at the leftmost position at which a placeholder-shaped text starts,
    and the remainder is the line with every occurrence of the matched
    text deleted; when the matched text occurs once in the line, the
    remainder is the line without that one substring, the text before
    and after it (further placeholder tokens included) left verbatim. *)
Theorem remainder_deletes_matched_text (line : string) (p : placeholder) :
  match_placeholder line = Some p ->
  exists m,
    search pattern line = Some m
    /\ line = m_pre m ++ group0 m ++ m_post m
    /\ placeholder_shaped (group0 m)
    /\ (forall a b tok rest,
          m_pre m = a ++ b -> b <> "" ->
          b ++ group0 m ++ m_post m = tok ++ rest ->
          ~ placeholder_shaped tok)
    /\ line_truncated p = replace line (group0 m) ""
    /\ (occurrences (group0 m) line = 1 ->
        line_truncated p = m_pre m ++ m_post m).
Proof.
  unfold match_placeholder. intros H.
  destruct (search pattern line) as [m|] eqn:E; [|discriminate].
  inversion H; subst; clear H. cbn [line_truncated].
  destruct (search_sound _ _ _ E) as [E1 E2].
  exists m. repeat split.
  - exact E1.
  - now apply shaped_of_parts.
  - intros a b tok rest Hab Hb Htok Hshape.
    destruct (parts_of_shaped _ Hshape) as (gs & Hgs & ->).
    pose proof (search_leftmost _ _ _ E a b Hab Hb) as Hn.
    rewrite Htok in Hn.
    now apply (match_here_complete pattern gs rest Hgs).
  - intros Hocc. rewrite E1 at 1. rewrite E1 in Hocc.
    apply delete_once; [now apply group0_nonempty | exact Hocc].
Qed.

Lemma remainder_witness :
  let line := "k: " ++ quoted "{{a.b}}" ++ " " ++ quoted "{{c.d}}" ++ nl in
  let p := Placeholder ("k:  " ++ quoted "{{c.d}}" ++ nl) "a.b" 2 in
  match_placeholder line = Some p
  /\ line_truncated p = "k: " ++ " " ++ quoted "{{c.d}}" ++ nl.
Proof.
  intros line p.
  assert (H : match_placeholder line = Some p) by (vm_compute; reflexivity).
  split; [exact H|].
  destruct (remainder_deletes_matched_text line p H)
    as (m & Hm & _ & _ & _ & _ & Honce).
  vm_compute in Hm. inversion Hm; subst m; clear Hm.
  etransitivity; [apply Honce|]; vm_compute; reflexivity.
Defined.

(* ================================================================== *)
(** * The line-stream processor *)
(* ================================================================== *)

Lemma process_lines_step (fs : FS) (root line : string)
    (rest acc : list string) :
  process_lines fs root (line :: rest) acc
  = (out <- expand_line fs root line ;;
     process_lines fs root rest (acc ++ out)%list).
Proof.
  unfold expand_line. cbn [process_lines].
  destruct (match_placeholder line); reflexivity.
Qed.

Lemma process_lines_verbatim (fs : FS) (root : string)
    (lines acc : list string) :
  Forall (fun line => match_placeholder line = None) lines ->
  process_lines fs root lines acc = Returned (acc ++ lines)%list.
Proof.
  intros H. revert acc.
  induction H as [|line rest Hline Hrest IH]; intros acc.
  - simpl. now rewrite List.app_nil_r.
  - cbn [process_lines]. rewrite Hline, IH, <- List.app_assoc.
    reflexivity.
Qed.

(** C5. A line without placeholder-shaped substring is appended to the
    output unchanged, whatever comes before and after it; a template none
    of whose lines contains one is processed into itself. *)
Theorem no_placeholder_identity (fs : FS) (root : string) :
  (forall line rest acc,
      ~ contains_placeholder line ->
      process_lines fs root (line :: rest) acc
      = process_lines fs root rest (acc ++ [line])%list)
  /\ (forall lines,
        Forall (fun line => ~ contains_placeholder line) lines ->
        generate_processed_content fs root lines = Returned lines).
Proof.
  split.
  - intros line rest acc Hline. apply match_none_iff in Hline.
    cbn [process_lines]. now rewrite Hline.
  - intros lines H. unfold generate_processed_content.
    rewrite process_lines_verbatim; [reflexivity|].
    eapply Forall_impl; [|exact H].
    intros line Hline. now apply match_none_iff.
Qed.

Lemma no_placeholder_witness :
  generate_processed_content Samples.dir "d"
    [ "a: 1" ++ nl; "b: {{ v.txt }}" ++ nl; "c: " ++ quoted "{{ v }}" ]
  = Returned
      [ "a: 1" ++ nl; "b: {{ v.txt }}" ++ nl; "c: " ++ quoted "{{ v }}" ].
Proof.
  apply (proj2 (no_placeholder_identity Samples.dir "d")).
  repeat constructor; apply match_none_iff; vm_compute; reflexivity.
Defined.

(* ================================================================== *)
(** * The expander *)
(* ================================================================== *)

Lemma last_cons_map (f : string -> string) (x : string)
    (l : list string) :
  l <> [] -> last (x :: map f l) "" = f (last l "").
Proof.
  intros Hl. revert x. induction l as [|y l IH]; intros x; [congruence|].
  destruct l as [|z l]; [reflexivity|].
  change (last (x :: map f (y :: z :: l)) "")
    with (last (f y :: map f (z :: l)) "").
  rewrite IH by discriminate. reflexivity.
Qed.

Lemma last_terminate_last (content : list string) :
  content <> [] ->
  endswith (last (terminate_last content) "") nl = true.
Proof.
  induction content as [|x [|y l] IH]; intros H; [congruence| |].
  - apply terminated_ends.
  - change (terminate_last (x :: y :: l))
      with (x :: terminate_last (y :: l)).
    assert (Hne : terminate_last (y :: l) <> []).
    { intros E. apply (f_equal (@List.length string)) in E.
      rewrite terminate_last_length in E. discriminate E. }
    destruct (terminate_last (y :: l)) as [|a t] eqn:E; [congruence|].
    change (last (x :: a :: t) "") with (last (a :: t) "").
    apply IH. discriminate.
Qed.

Lemma multi_line_not_blank (content : list string) :
  multi_line content ->
  forallb blank content = false
  /\ exists x y l, content = x :: y :: l.
Proof.
  intros [Hlen Hnb]. split; [exact Hnb|].
  destruct content as [|x [|y l]]; simpl in Hlen; try lia.
  now exists x, y, l.
Qed.

(** C3. For a multi-line referenced file whose extension is not yaml or
    yml, the expander emits the remainder with its trailing newline
    replaced by a vertical bar and a newline, then every content line
    prefixed with the indent width in spaces, a blank line being emitted
    as a bare newline; the last content line is given a newline when the
    file lacks it, so the last emitted line ends with one. *)
Theorem multi_line_text_expansion (fs : FS) (root name rem : string)
    (n : Z) (content : list string) :
  fs (OsPath.join root name) = Some content ->
  multi_line content ->
  yaml_name name = false ->
  template_line rem = true ->
  exists out,
    process_placeholder fs root name rem n = Returned out
    /\ out = replace_trailing_newline rem ("|" ++ nl)
             :: map (fun line =>
                       if blank line then nl else spaces n ++ line)
                    (terminate_last content)
    /\ (forall body, rem = body ++ nl -> hd "" out = body ++ "|" ++ nl)
    /\ endswith (last out "") nl = true.
Proof.
  intros Hfs Hml Hyaml Hrem.
  destruct (multi_line_not_blank _ Hml) as (Hnb & x & y & l & ->).
  rewrite process_placeholder_cases, Hfs, Hnb, Hyaml.
  rewrite (replace_newline_line _ _ Hrem).
  eexists. split; [reflexivity|]. split; [reflexivity|]. split.
  - intros body ->. cbn [hd]. apply replace_trailing_present.
  - fold (emit n).
    rewrite last_cons_map.
    + apply emit_ends. apply last_terminate_last. discriminate.
    + intros E. apply (f_equal (@List.length string)) in E.
      rewrite terminate_last_length in E. discriminate E.
Qed.

Lemma multi_line_text_witness :
  process_placeholder Samples.dir "d" "items.txt" ("  - " ++ nl) 4
  = Returned [ "  - |" ++ nl; "    a" ++ nl; nl; "    b" ++ nl ].
Proof.
  destruct (multi_line_text_expansion Samples.dir "d" "items.txt"
              ("  - " ++ nl) 4 ["a" ++ nl; "  " ++ nl; "b"])
    as (out & Hout & -> & _).
  - vm_compute. reflexivity.
  - split; [simpl; lia | vm_compute; reflexivity].
  - vm_compute. reflexivity.
  - vm_compute. reflexivity.
  - rewrite Hout. vm_compute. reflexivity.
Defined.




(** C9. On a matched line without trailing newline the splice at the
    newline does nothing: with a one-line referenced file the expander
    returns the remainder alone, the content being dropped, and with a
    multi-line file that is not YAML the remainder is emitted without a
    block marker, before the content lines. *)
Theorem unterminated_line_splice_noop (line : string) (p : placeholder) :
  template_line line = true ->
  endswith line nl = false ->
  match_placeholder line = Some p ->
  (forall (fs : FS) root x,
      fs (OsPath.join root (file_name p)) = Some [x] ->
      blank x = false ->
      process_placeholder fs root (file_name p) (line_truncated p)
        (indentation p)
      = Returned [line_truncated p])
  /\ (forall (fs : FS) root content,
        fs (OsPath.join root (file_name p)) = Some content ->
        multi_line content ->
        yaml_name (file_name p) = false ->
        process_placeholder fs root (file_name p) (line_truncated p)
          (indentation p)
        = Returned
            (line_truncated p
             :: map (emit (indentation p)) (terminate_last content))).
Proof.
  intros Hline Hend Hmatch.
  assert (Hrem : all_chars not_newline (line_truncated p) = true).
  { unfold match_placeholder in Hmatch.
    destruct (search pattern line) as [m|]; [|discriminate].
    inversion Hmatch; subst; clear Hmatch. cbn [line_truncated].
    apply delete_all. now apply unterminated_line. }
  split.
  - intros fs root x Hfs Hx.
    rewrite process_placeholder_cases, Hfs.
    cbn [forallb]. rewrite Hx. cbn [andb].
    now rewrite replace_newline_absent.
  - intros fs root content Hfs Hml Hyaml.
    destruct (multi_line_not_blank _ Hml) as (Hnb & x & y & l & ->).
    rewrite process_placeholder_cases, Hfs, Hnb, Hyaml.
    now rewrite replace_newline_absent.
Qed.

Lemma unterminated_line_witness :
  let line := "k: " ++ quoted "{{ v.txt }}" in
  let p := Placeholder "k: " "v.txt" 2 in
  match_placeholder line = Some p
  /\ process_placeholder Samples.dir "d" "v.txt" "k: " 2
     = Returned ["k: "].
Proof.
  intros line p.
  assert (H : match_placeholder line = Some p) by (vm_compute; reflexivity).
  split; [exact H|].
  assert (Ht : template_line line = true) by (vm_compute; reflexivity).
  assert (He : endswith line nl = false) by (vm_compute; reflexivity).
  apply (proj1 (unterminated_line_splice_noop line p Ht He H)
           Samples.dir "d" ("hello" ++ nl)).
  - vm_compute. reflexivity.
  - vm_compute. reflexivity.
Defined.

Lemma Forall_emit (n : Z) (l : list string) :
  Forall (fun line => endswith line nl = true) l ->
  Forall (fun line => endswith line nl = true) (map (emit n) l).
Proof.
  induction 1 as [|x l Hx Hl IH]; simpl; constructor;
    [now apply emit_ends | exact IH].
Qed.

(** C10. In a multi-line expansion, YAML or not, the last line of the
    referenced file is given a newline when it lacks one before the lines
    are formatted: the content lines emitted are the lines of the file
    with that repaired last line (but for a dropped document-start
    marker of a YAML file), the last of them is the repaired last line,
    and every one of them ends with a newline. *)
Theorem multi_line_output_terminated (fs : FS) (root name rem : string)
    (n : Z) (content : list string) :
  fs (OsPath.join root name) = Some content ->
  multi_line content ->
  file_lines content = true ->
  exists out,
    process_placeholder fs root name rem n = Returned out
    /\ tl out
       = map (fun line => if blank line then nl else spaces n ++ line)
           (if yaml_name name
               && String.eqb (nth 0 content "") ("---" ++ nl)
            then tl (terminate_last content)
            else terminate_last content)
    /\ terminate_last content
       = (removelast content ++ [terminated (last content "")])%list
    /\ last out ""
       = (if blank (terminated (last content "")) then nl
          else spaces n ++ terminated (last content ""))
    /\ Forall (fun line => endswith line nl = true) (tl out).
Proof.
  intros Hfs Hml Hlines.
  destruct (multi_line_not_blank _ Hml) as (Hnb & x & y & l & ->).
  rewrite process_placeholder_cases, Hfs, Hnb.
  pose proof (terminate_last_ends _ Hlines) as Hends.
  assert (HT : terminate_last (x :: y :: l)
               = (removelast (x :: y :: l)
                  ++ [terminated (last (x :: y :: l) "")])%list)
    by (apply terminate_last_removelast; discriminate).
  set (t := terminated (last (x :: y :: l) "")) in *.
  change (removelast (x :: y :: l))
    with (x :: removelast (y :: l)) in HT.
  set (R := removelast (y :: l)) in *.
  fold (emit n). fold (emit n t).
  assert (Hlast : forall first,
             last (first :: map (emit n) (R ++ [t])%list) "" = emit n t).
  { intros first. rewrite last_cons_map by (destruct R; discriminate).
    now rewrite last_last. }
  assert (Hlast' : forall first,
             last (first :: map (emit n) ((x :: R) ++ [t])%list) ""
             = emit n t).
  { intros first. rewrite last_cons_map by discriminate.
    now rewrite last_last. }
  destruct (yaml_name name).
  - destruct (String.eqb (nth 0 (x :: y :: l) "") ("---" ++ nl));
      eexists; (split; [reflexivity|]); cbn [andb tl];
      (split; [reflexivity|]); (split; [exact HT|]).
    + rewrite HT. cbn [List.app tl]. split; [apply Hlast|].
      apply Forall_emit. rewrite HT in Hends. now inversion Hends.
    + rewrite HT. split; [apply Hlast'|].
      apply Forall_emit. now rewrite <- HT.
  - eexists. split; [reflexivity|]. cbn [andb tl].
    split; [reflexivity|]. split; [exact HT|].
    rewrite HT. split; [apply Hlast'|].
    apply Forall_emit. now rewrite <- HT.
Qed.

Lemma multi_line_output_witness :
  exists out,
    process_placeholder Samples.dir "d" "spec.yaml" ("  " ++ nl) 4
    = Returned out
    /\ tl out = ["    foo: bar" ++ nl; "    baz: 1" ++ nl]
    /\ last out "" = "    baz: 1" ++ nl
    /\ Forall (fun line => endswith line nl = true) (tl out).
Proof.
  destruct (multi_line_output_terminated Samples.dir "d" "spec.yaml"
              ("  " ++ nl) 4 ["---" ++ nl; "foo: bar" ++ nl; "baz: 1"])
    as (out & Hout & Htl & _ & Hlast & Hends).
  - vm_compute. reflexivity.
  - split; [simpl; lia | vm_compute; reflexivity].
  - vm_compute. reflexivity.
  - exists out. split; [exact Hout|].
    split; [rewrite Htl; vm_compute; reflexivity|].
    split; [rewrite Hlast; vm_compute; reflexivity | exact Hends].
Defined.

(** X11. The one-line substitution is in place when the placeholder is
    the last text of a terminated line and occurs once in it. *)
Lemma single_line_in_place_at_line_end (fs : FS) (root line x : string)
    (p : placeholder) (m : Match) :
  search pattern line = Some m ->
  match_placeholder line = Some p ->
  m_post m = nl ->
  all_chars not_newline (m_pre m) = true ->
  occurrences (group0 m) line = 1 ->
  fs (OsPath.join root (file_name p)) = Some [x] ->
  blank x = false ->
  process_placeholder fs root (file_name p) (line_truncated p)
    (indentation p)
  = Returned [spliced_in_place m (replace x nl "")].
Proof.
  intros Hm Hp Hpost Hpre Hocc Hfs Hx.
  destruct (search_sound _ _ _ Hm) as [E1 E2].
  unfold match_placeholder in Hp. rewrite Hm in Hp.
  inversion Hp; subst p; clear Hp. cbn [line_truncated file_name] in *.
  cbn [indentation].
  rewrite process_placeholder_cases, Hfs.
  cbn [forallb]. rewrite Hx. cbn [andb].
  rewrite E1 at 1. rewrite E1 in Hocc.
  rewrite (delete_once _ _ _ (group0_nonempty _ E2) Hocc).
  unfold spliced_in_place. rewrite Hpost.
  rewrite replace_newline_line by now apply template_line_terminated.
  now rewrite replace_trailing_present.
Qed.

(** C1, evaluated where it fails. On a line with text after the
    placeholder, the content of a one-line file is not put where the
    placeholder stood: it lands at the end of the line, before the
    newline. *)
Theorem single_line_content_lands_at_line_end :
  let line := "key: " ++ quoted "{{ v.txt }}" ++ " # note" ++ nl in
  exists m,
    search pattern line = Some m
    /\ spliced_in_place m "hello" = "key: hello # note" ++ nl
    /\ expand_line Samples.dir "d" line
       = Returned ["key:  # notehello" ++ nl]
    /\ expand_line Samples.dir "d" line
       <> Returned [spliced_in_place m "hello"].
Proof.
  eexists. split; [vm_compute; reflexivity|].
  split; [vm_compute; reflexivity|].
  split; [vm_compute; reflexivity|].
  vm_compute. discriminate.
Qed.

(* ================================================================== *)
(** * The driver *)
(* ================================================================== *)

Lemma process_lines_fail (fs : FS) (root : string)
    (pre : list string) (line : string) (post : list string) (e : exn) :
  Forall (expansion_succeeds fs root) pre ->
  expand_line fs root line = Raised e ->
  forall acc, process_lines fs root (pre ++ line :: post)%list acc = Raised e.
Proof.
  intros Hpre Hline.
  induction Hpre as [|x pre [out Hx] Hpre IH]; intros acc.
  - cbn [List.app]. rewrite process_lines_step, Hline. reflexivity.
  - change ((x :: pre) ++ line :: post)%list
      with (x :: (pre ++ line :: post))%list.
    rewrite process_lines_step, Hx. cbn [bind]. apply IH.
Qed.

Lemma process_lines_returned (fs : FS) (root : string)
    (lines : list string) :
  forall acc out,
    process_lines fs root lines acc = Returned out ->
    Forall (expansion_succeeds fs root) lines.
Proof.
  induction lines as [|x lines IH]; intros acc out H; [constructor|].
  rewrite process_lines_step in H.
  destruct (expand_line fs root x) as [o|e] eqn:Ex; [|discriminate H].
  cbn [bind] in H. constructor; [now exists o | eapply IH; exact H].
Qed.

Lemma succeeds_not_fails (fs : FS) (root : string) (lines : list string) :
  Forall (expansion_succeeds fs root) lines ->
  ~ Exists (expansion_fails fs root) lines.
Proof.
  intros Hall Hex. apply Exists_exists in Hex as (x & Hin & e & He).
  rewrite Forall_forall in Hall. destruct (Hall x Hin) as [out Hout].
  congruence.
Qed.

(** A write either completes, and is then recorded, or raises and
    records nothing; it prints nothing and touches no other file. *)
Lemma save_outcomes (w w1 : World) (content : list string)
    (target_file : string) (r : result unit) :
  save_yaml_template w content target_file = (w1, r) ->
  stdout w1 = stdout w
  /\ faults w1 = faults w
  /\ (forall p, p <> target_file -> files w1 p = files w p)
  /\ ((r = Returned tt
       /\ faults w target_file = NoFault
       /\ files w1 target_file
          = Some (split_lines (concat_all content))
       /\ written w1
          = (written w ++ [(target_file, concat_all content)])%list)
      \/ (exists e, r = Raised e /\ written w1 = written w)).
Proof.
  unfold save_yaml_template. intros H.
  assert (Hstore : forall text p,
             p <> target_file ->
             files (store w target_file text) p = files w p).
  { intros text p Hp. cbn [store files].
    apply String.eqb_neq in Hp. now rewrite Hp. }
  destruct (truthy (OsPath.dirname target_file)).
  - destruct (faults w target_file) eqn:Ef; inversion H; subst; clear H;
      (split; [reflexivity|]); (split; [reflexivity|]).
    + split; [apply Hstore|]. left.
      split; [reflexivity|]. split; [reflexivity|].
      split; [|reflexivity].
      cbn [record_write store files]. now rewrite String.eqb_refl.
    + split; [reflexivity|]. right. eauto.
    + split; [apply Hstore|]. right. eauto.
  - inversion H; subst; clear H.
    split; [reflexivity|]. split; [reflexivity|].
    split; [reflexivity|]. right. eauto.
Qed.

(** C7. When the expansion of a placeholder of the template fails, the
    driver ends with that error and the world as it was, so no output
    file is written; an output file is written only when every line of
    the template has been processed successfully. *)
Theorem failed_expansion_aborts (BASE_DIR : string) (w : World)
    (lines : list string) :
  files w (OsPath.join (SOURCE_DIR BASE_DIR) "template.yaml")
  = Some lines ->
  (forall pre line post e,
      lines = (pre ++ line :: post)%list ->
      Forall (expansion_succeeds (files w) (SOURCE_DIR BASE_DIR)) pre ->
      expand_line (files w) (SOURCE_DIR BASE_DIR) line = Raised e ->
      process_templates BASE_DIR w = (w, Raised e))
  /\ (Exists (expansion_fails (files w) (SOURCE_DIR BASE_DIR)) lines ->
      exists e, process_templates BASE_DIR w = (w, Raised e))
  /\ (forall w' r,
        process_templates BASE_DIR w = (w', r) ->
        written w' <> written w ->
        Forall (expansion_succeeds (files w) (SOURCE_DIR BASE_DIR)) lines
        /\ r = Returned tt).
Proof.
  intros Hfs. unfold process_templates, read_file_content.
  rewrite Hfs. unfold generate_processed_content.
  split; [|split].
  - intros pre line post e -> Hpre Hline.
    now rewrite (process_lines_fail _ _ _ _ _ _ Hpre Hline).
  - intros Hex.
    destruct (process_lines (files w) (SOURCE_DIR BASE_DIR) lines [])
      as [out|e] eqn:E; [|now exists e].
    apply process_lines_returned in E.
    now apply succeeds_not_fails in E.
  - intros w' r H Hw.
    destruct (process_lines (files w) (SOURCE_DIR BASE_DIR) lines [])
      as [out|e] eqn:E.
    + apply process_lines_returned in E. split; [exact E|].
      destruct (save_yaml_template w out
                  (OsPath.join (TARGET_DIR BASE_DIR) "template.yaml"))
        as [w1 r1] eqn:Es.
      destruct (save_outcomes _ _ _ _ _ Es)
        as (_ & _ & _ & [(-> & _) | (e & -> & Hwr)]).
      * now inversion H.
      * inversion H; subst. congruence.
    + inversion H; subst. congruence.
Qed.

Lemma failed_expansion_witness :
  process_templates "/app" Samples.broken_world
  = (Samples.broken_world,
     Raised (FileNotFoundError "File '/app/src/gone.txt' not found.")).
Proof.
  apply (proj1 (failed_expansion_aborts "/app" Samples.broken_world
                  [ "a: 1" ++ nl; "b: " ++ quoted "{{ gone.txt }}" ++ nl;
                    "c: 3" ++ nl ] eq_refl)
           ["a: 1" ++ nl] ("b: " ++ quoted "{{ gone.txt }}" ++ nl)
           ["c: 3" ++ nl]).
  - reflexivity.
  - repeat constructor. eexists. vm_compute. reflexivity.
  - vm_compute. reflexivity.
Defined.

(* ================================================================== *)
(** * More on matching *)
(* ================================================================== *)

Module GreedyFacts.

(** A repetition that has consumed its whole run and is followed by a
    character outside its class hands over where the run ends. *)
Lemma star_stop (p : ascii -> bool)
    (k : string -> option (list string * string))
    (g u : string) (gs : list string) (r : string) :
  all_chars p g = true ->
  (forall c u', u = String c u' -> p c = false) ->
  k u = Some (gs, r) ->
  star p k (g ++ u) = Some (g, gs, r).
Proof.
  intros Hg Hu Hk. induction g as [|c g IH].
  - destruct u as [|c u']; simpl.
    + now rewrite Hk.
    + rewrite (Hu c u' eq_refl). now rewrite Hk.
  - simpl in Hg. apply andb_prop in Hg as [Hc Hg].
    simpl. rewrite Hc, (IH Hg). reflexivity.
Qed.

Lemma star_none (p : ascii -> bool)
    (k : string -> option (list string * string)) (u : string) :
  (forall a b, u = a ++ b -> k b = None) -> star p k u = None.
Proof.
  induction u as [|c u IH]; intros H; simpl.
  - now rewrite (H "" "" eq_refl).
  - assert (Hu : star p k u = None).
    { apply IH. intros a b ->. now apply (H (String c a) b). }
    rewrite Hu, (H "" (String c u) eq_refl). now destruct (p c).
Qed.

(** Backtracking returns the longest repetition after which the rest of
    the pattern matches: when the rest matches at [u] and at no later
    position, the repetition consumes exactly what precedes [u]. *)
Lemma star_first_success (p : ascii -> bool)
    (k : string -> option (list string * string))
    (g u : string) (gs : list string) (r : string) :
  all_chars p g = true ->
  k u = Some (gs, r) ->
  (forall a b, u = a ++ b -> a <> "" -> k b = None) ->
  star p k (g ++ u) = Some (g, gs, r).
Proof.
  intros Hg Hk Hlater. induction g as [|c g IH].
  - destruct u as [|c u']; simpl.
    + now rewrite Hk.
    + assert (Hu : star p k u' = None).
      { apply star_none. intros a b ->.
        apply (Hlater (String c a) b); [reflexivity | discriminate]. }
      rewrite Hu, Hk. now destruct (p c).
  - simpl in Hg. apply andb_prop in Hg as [Hc Hg].
    simpl. rewrite Hc, (IH Hg). reflexivity.
Qed.

Lemma lacks_app (d : ascii) (a b : string) :
  lacks d (a ++ b) = lacks d a && lacks d b.
Proof. apply StrFacts.all_chars_app. Qed.

(** A text matched by a pattern with the literal [d] contains [d]. *)
Lemma parts_contain_literal (d : ascii) (pat : list item)
    (gs : list string) :
  Forall2 part_ok pat gs -> In (lit d) pat ->
  lacks d (concat_all gs) = false.
Proof.
  induction 1 as [|it g pat gs Hg Hrest IH]; intros Hin; [destruct Hin|].
  cbn [concat_all]. rewrite lacks_app. destruct Hin as [-> | Hin].
  - destruct Hg as (c & -> & Hc). cbn [lit cls] in Hc.
    apply Ascii.eqb_eq in Hc. subst c.
    unfold lacks. cbn [all_chars]. now rewrite Ascii.eqb_refl.
  - rewrite (IH Hin). apply andb_false_r.
Qed.

Lemma match_needs_literal (d : ascii) (pat : list item) (s : string) :
  In (lit d) pat -> lacks d s = true -> match_here pat s = None.
Proof.
  intros Hin Hs. destruct (match_here pat s) as [[gs r]|] eqn:E;
    [|reflexivity].
  destruct (match_here_sound _ _ _ _ E) as [-> Hgs].
  rewrite lacks_app, (parts_contain_literal _ _ _ Hgs Hin) in Hs.
  discriminate Hs.
Qed.

Lemma search_needs_literal (d : ascii) (pat : list item) (s : string) :
  In (lit d) pat -> lacks d s = true -> search pat s = None.
Proof.
  intros Hin Hs. destruct (search pat s) as [m|] eqn:E; [|reflexivity].
  destruct (search_sound _ _ _ E) as [E1 Hgs].
  rewrite E1, !lacks_app in Hs. unfold group0 in Hs.
  rewrite (parts_contain_literal _ _ _ Hgs Hin), andb_false_r in Hs.
  discriminate Hs.
Qed.

End GreedyFacts.

Import GreedyFacts.

(** X4. Text that lacks a double quote, an opening brace, a closing
    brace or a dot is never taken for a placeholder: the locator returns
    nothing for it. *)
Theorem malformed_line_not_matched (line : string) :
  lacks dquote line = true \/ lacks "{" line = true
  \/ lacks "}" line = true \/ lacks "." line = true ->
  match_placeholder line = None.
Proof.
  intros H. unfold match_placeholder.
  assert (Hs : search pattern line = None).
  { destruct H as [H | [H | [H | H]]];
      (eapply search_needs_literal; [|exact H]);
      unfold pattern; simpl; tauto. }
  now rewrite Hs.
Qed.

Lemma malformed_line_witness :
  match_placeholder ("key: {{ value.txt }}" ++ nl) = None
  /\ match_placeholder ("key: " ++ quoted "{{ value }}" ++ nl) = None.
Proof.
  split; apply malformed_line_not_matched.
  - left. vm_compute. reflexivity.
  - right. right. right. vm_compute. reflexivity.
Defined.

Lemma isword_notspace (c : ascii) : isword c = true -> notspace c = true.
Proof.
  destruct c as [[] [] [] [] [] [] [] []]; vm_compute; intros H;
    first [reflexivity | discriminate H].
Qed.

Lemma all_word_notspace (s : string) :
  all_chars isword s = true -> all_chars notspace s = true.
Proof.
  induction s as [|c s IH]; simpl; intros H; [reflexivity|].
  apply andb_prop in H as [Hc Hs].
  now rewrite (isword_notspace _ Hc), IH.
Qed.

(** X2. The name the locator returns is the text between the braces
    without its surrounding whitespace: a non-empty text without
    whitespace, a dot, and a non-empty extension of word characters; the
    name has no whitespace at all. *)
Theorem file_name_shape (line : string) (p : placeholder) :
  match_placeholder line = Some p ->
  exists name ext,
    file_name p = name ++ "." ++ ext
    /\ name <> "" /\ all_chars notspace name = true
    /\ ext <> "" /\ all_chars isword ext = true
    /\ all_chars notspace (file_name p) = true.
Proof.
  unfold match_placeholder. intros H.
  destruct (search pattern line) as [m|] eqn:E; [|discriminate].
  inversion H; subst; clear H. cbn [file_name].
  destruct (search_sound _ _ _ E) as [_ Hparts].
  unfold part. destruct m as [pre parts post]. cbn [m_parts] in *.
  unfold pattern in Hparts.
  repeat match goal with
         | H : Forall2 _ (_ :: _) _ |- _ => inversion H; subst; clear H
         | H : Forall2 _ [] _ |- _ => inversion H; subst; clear H
         end.
  repeat match goal with
         | H : part_ok (lit _) _ |- _ => clear H
         | H : part_ok (Item _ Plus) _ |- _ => destruct H as [? ?]
         | H : part_ok (Item _ Star) _ |- _ => clear H
         end.
  cbn [cls nth] in *.
  match goal with
  | Hn : all_chars notspace ?n = true, He : all_chars isword ?e = true
    |- _ =>
      exists n, e; repeat split; try assumption;
      change (all_chars notspace (n ++ "." ++ e) = true);
      rewrite !all_chars_app; cbn [all_chars];
      rewrite Hn, (all_word_notspace _ He)
  end.
  reflexivity.
Qed.

Lemma file_name_shape_witness :
  let line := "  k: " ++ quoted "{{  dir/app.v2.yaml  }}" ++ nl in
  exists p,
    match_placeholder line = Some p /\ file_name p = "dir/app.v2.yaml".
Proof.
  intros line. eexists. split; [vm_compute; reflexivity|].
  destruct (file_name_shape line _ eq_refl) as (name & ext & _).
  reflexivity.
Defined.

(* ================================================================== *)
(** * A line with one placeholder *)
(* ================================================================== *)

Module TokenFacts.

Lemma isspace_notword (c : ascii) : isspace c = true -> isword c = false.
Proof.
  destruct c as [[] [] [] [] [] [] [] []]; vm_compute; intros H;
    first [reflexivity | discriminate H].
Qed.

Lemma word_not_dot (c : ascii) :
  isword c = true -> negb (Ascii.eqb c ".") = true.
Proof.
  destruct c as [[] [] [] [] [] [] [] []]; vm_compute; intros H;
    first [reflexivity | discriminate H].
Qed.

Lemma space_not_dot (c : ascii) :
  isspace c = true -> negb (Ascii.eqb c ".") = true.
Proof.
  destruct c as [[] [] [] [] [] [] [] []]; vm_compute; intros H;
    first [reflexivity | discriminate H].
Qed.

Lemma all_chars_impl (p q : ascii -> bool) (s : string) :
  (forall c, p c = true -> q c = true) ->
  all_chars p s = true -> all_chars q s = true.
Proof.
  intros Hpq. induction s as [|c s IH]; simpl; intros H; [reflexivity|].
  apply andb_prop in H as [Hc Hs]. now rewrite (Hpq _ Hc), IH.
Qed.

(** The end of the pattern on the end of a token. *)
Lemma closing_match (post : string) :
  match_here [lit "}"; lit "}"; lit dquote] ("}}" ++ dq ++ post)
  = Some (["}"; "}"; dq], post).
Proof. reflexivity. Qed.

Lemma ws2_match (ws2 post : string) :
  all_chars isspace ws2 = true ->
  match_here [Item isspace Star; lit "}"; lit "}"; lit dquote]
    (ws2 ++ "}}" ++ dq ++ post)
  = Some ([ws2; "}"; "}"; dq], post).
Proof.
  intros Hws. cbn [match_here].
  rewrite (star_stop isspace _ ws2 _ ["}"; "}"; dq] post Hws).
  - reflexivity.
  - intros c u' E. inversion E; subst. reflexivity.
  - apply closing_match.
Qed.

Lemma ext_match (ext ws2 post : string) :
  ext <> "" -> all_chars isword ext = true ->
  all_chars isspace ws2 = true ->
  match_here
    [lit "."; Item isword Plus; Item isspace Star;
     lit "}"; lit "}"; lit dquote]
    ("." ++ ext ++ ws2 ++ "}}" ++ dq ++ post)
  = Some (["."; ext; ws2; "}"; "}"; dq], post).
Proof.
  intros Hne Hext Hws. destruct ext as [|c ext]; [congruence|].
  cbn [all_chars] in Hext. apply andb_prop in Hext as [Hc Hext].
  change (match_here
            [lit "."; Item isword Plus; Item isspace Star;
             lit "}"; lit "}"; lit dquote]
            (String "." (String c (ext ++ ws2 ++ "}}" ++ dq ++ post)))
          = Some (["."; String c ext; ws2; "}"; "}"; dq], post)).
  cbn [match_here lit]. rewrite Ascii.eqb_refl, Hc.
  rewrite (star_stop isword _ ext _ [ws2; "}"; "}"; dq] post Hext).
  - reflexivity.
  - intros c0 u' E. destruct ws2 as [|w ws2].
    + inversion E; subst. reflexivity.
    + inversion E; subst. cbn [all_chars] in Hws.
      apply andb_prop in Hws as [Hw _]. now apply isspace_notword.
  - now apply ws2_match.
Qed.

(** Where a text starts with a dot inside [x ++ post], [x] having no
    dot, it starts inside [post]. *)
Lemma dot_suffix (x post a s : string) :
  lacks "." x = true ->
  x ++ post = a ++ String "." s ->
  exists b, post = b ++ String "." s.
Proof.
  revert a. induction x as [|c x IH]; intros a Hx E.
  - now exists a.
  - unfold lacks in Hx. cbn [all_chars] in Hx.
    apply andb_prop in Hx as [Hc Hx].
    destruct a as [|c' a]; simpl in E; inversion E; subst.
    + rewrite Ascii.eqb_refl in Hc. discriminate Hc.
    + now apply (IH a).
Qed.

(** After the dot of the extension the rest of the pattern matches at no
    later position, as long as no double quote follows the token. *)
Lemma ext_match_later (ext ws2 post a b : string) :
  all_chars isword ext = true ->
  all_chars isspace ws2 = true ->
  lacks dquote post = true ->
  "." ++ ext ++ ws2 ++ "}}" ++ dq ++ post = a ++ b ->
  a <> "" ->
  match_here
    [lit "."; Item isword Plus; Item isspace Star;
     lit "}"; lit "}"; lit dquote] b
  = None.
Proof.
  intros Hext Hws Hpost E Ha.
  destruct b as [|c b]; [reflexivity|].
  cbn [match_here lit]. destruct (Ascii.eqb "." c) eqn:Ec; [|reflexivity].
  apply Ascii.eqb_eq in Ec. subst c.
  destruct a as [|c a]; [congruence|].
  simpl in E. inversion E as [[Hc E']]. clear E.
  assert (Hx : lacks "." (ext ++ ws2 ++ "}}" ++ dq) = true).
  { rewrite !lacks_app.
    unfold lacks at 1 2.
    rewrite (all_chars_impl _ _ _ word_not_dot Hext).
    rewrite (all_chars_impl _ _ _ space_not_dot Hws).
    reflexivity. }
  assert (E2 : (ext ++ ws2 ++ "}}" ++ dq) ++ post = a ++ String "." b).
  { rewrite <- E'. now rewrite !app_assoc. }
  destruct (dot_suffix _ _ _ _ Hx E2) as [b0 Hb0].
  assert (Hb : lacks dquote (String "." b) = true).
  { rewrite Hb0, lacks_app in Hpost.
    now apply andb_prop in Hpost as [_ Hpost]. }
  pose proof (match_needs_literal dquote
                [lit "."; Item isword Plus; Item isspace Star;
                 lit "}"; lit "}"; lit dquote]
                (String "." b)) as Hn.
  cbn [match_here lit] in Hn. rewrite Ascii.eqb_refl in Hn.
  apply Hn; [simpl; tauto | exact Hb].
Qed.

Lemma name_match (name ext ws2 post : string) :
  name <> "" -> all_chars notspace name = true ->
  ext <> "" -> all_chars isword ext = true ->
  all_chars isspace ws2 = true ->
  lacks dquote post = true ->
  match_here
    [Item notspace Plus; lit "."; Item isword Plus; Item isspace Star;
     lit "}"; lit "}"; lit dquote]
    (name ++ "." ++ ext ++ ws2 ++ "}}" ++ dq ++ post)
  = Some ([name; "."; ext; ws2; "}"; "}"; dq], post).
Proof.
  intros Hne Hname Hene Hext Hws Hpost.
  destruct name as [|c name]; [congruence|].
  cbn [all_chars] in Hname. apply andb_prop in Hname as [Hc Hname].
  change (String c name ++ "." ++ ext ++ ws2 ++ "}}" ++ dq ++ post)
    with (String c (name ++ "." ++ ext ++ ws2 ++ "}}" ++ dq ++ post)).
  cbn [match_here]. rewrite Hc.
  rewrite (star_first_success notspace _ name _
             ["."; ext; ws2; "}"; "}"; dq] post Hname).
  - reflexivity.
  - now apply ext_match.
  - intros a b E Ha. now apply (ext_match_later ext ws2 post a b).
Qed.

(** The pattern on a token followed by text without double quote: every
    item consumes its part of the token. *)
Lemma token_match (ws1 name ext ws2 post : string) :
  all_chars isspace ws1 = true ->
  name <> "" -> all_chars notspace name = true ->
  ext <> "" -> all_chars isword ext = true ->
  all_chars isspace ws2 = true ->
  lacks dquote post = true ->
  match_here pattern (token ws1 name ext ws2 ++ post)
  = Some ([dq; "{"; "{"; ws1; name; "."; ext; ws2; "}"; "}"; dq], post).
Proof.
  intros Hws1 Hne Hname Hene Hext Hws2 Hpost.
  unfold token. rewrite !app_assoc.
  change (dq ++ "{{" ++ ws1 ++ name ++ "." ++ ext ++ ws2 ++ "}}"
          ++ dq ++ post)
    with (String dquote (String "{" (String "{"
            (ws1 ++ name ++ "." ++ ext ++ ws2 ++ "}}" ++ dq ++ post)))).
  unfold pattern. cbn [match_here lit]. rewrite !Ascii.eqb_refl.
  rewrite (star_stop isspace _ ws1 _
             [name; "."; ext; ws2; "}"; "}"; dq] post Hws1).
  - reflexivity.
  - intros c u' E. destruct name as [|c' name]; [congruence|].
    inversion E; subst. cbn [all_chars] in Hname.
    apply andb_prop in Hname as [Hc _]. unfold notspace in Hc.
    now destruct (isspace c).
  - now apply name_match.
Qed.

Lemma match_here_needs_quote (c : ascii) (s : string) :
  Ascii.eqb c dquote = false -> match_here pattern (String c s) = None.
Proof.
  intros Hc. unfold pattern. cbn [match_here lit].
  rewrite Ascii.eqb_sym, Hc. reflexivity.
Qed.

(** Before the first double quote of a line nothing matches. *)
Lemma search_after_prefix (pre s : string) (gs : list string)
    (post : string) :
  lacks dquote pre = true ->
  match_here pattern s = Some (gs, post) ->
  search pattern (pre ++ s) = Some (MkMatch pre gs post).
Proof.
  intros Hpre Hs. induction pre as [|c pre IH].
  - change ("" ++ s) with s. destruct s; cbn [search]; now rewrite Hs.
  - unfold lacks in Hpre. cbn [all_chars] in Hpre.
    apply andb_prop in Hpre as [Hc Hpre].
    apply negb_true_iff in Hc.
    change (String c pre ++ s) with (String c (pre ++ s)).
    cbn [search]. rewrite (match_here_needs_quote _ _ Hc).
    rewrite (IH Hpre). reflexivity.
Qed.

End TokenFacts.

Module OnceFacts.

Lemma app_split (a x b y : string) :
  a ++ x = b ++ y -> String.length a <= String.length b ->
  exists m, b = a ++ m /\ x = m ++ y.
Proof.
  revert b. induction a as [|c a IH]; intros b E Hlen.
  - exists b. now split.
  - destruct b as [|c' b]; [simpl in Hlen; lia|].
    simpl in E. inversion E; subst.
    destruct (IH b H1) as (m & -> & ->); [simpl in Hlen; lia|].
    now exists m.
Qed.

(** A text that ends with a double quote does not start where fewer
    characters than its length are left before text without one. *)
Lemma startswith_short (tb post a : string) :
  lacks dquote post = true ->
  String.length a <= String.length tb ->
  startswith (a ++ post) (tb ++ dq) = false.
Proof.
  intros Hpost Hlen.
  destruct (startswith (a ++ post) (tb ++ dq)) eqn:E; [|reflexivity].
  apply startswith_split in E as [t E]. rewrite app_assoc in E.
  destruct (app_split _ _ _ _ E Hlen) as (m & _ & Hm).
  rewrite Hm, !lacks_app in Hpost.
  apply andb_prop in Hpost as [_ Hpost].
  apply andb_prop in Hpost as [Hq _]. discriminate Hq.
Qed.

Lemma startswith_unquoted (tb post : string) :
  lacks dquote post = true -> startswith post (tb ++ dq) = false.
Proof.
  intros Hpost. apply (startswith_short tb post "" Hpost). simpl. lia.
Qed.

Lemma occurrences_short (tb post a : string) :
  lacks dquote post = true ->
  String.length a <= String.length tb ->
  occurrences (tb ++ dq) (a ++ post) = 0.
Proof.
  intros Hpost. induction a as [|c a IH]; intros Hlen.
  - change ("" ++ post) with post. clear Hlen.
    induction post as [|c post IH].
    + cbn [occurrences].
      now rewrite (startswith_unquoted tb "" eq_refl).
    + cbn [occurrences].
      rewrite (startswith_unquoted tb _ Hpost).
      unfold lacks in Hpost. cbn [all_chars] in Hpost.
      apply andb_prop in Hpost as [_ Hpost]. now rewrite IH.
  - change (String c a ++ post) with (String c (a ++ post)).
    cbn [occurrences].
    change (String c (a ++ post)) with (String c a ++ post).
    rewrite (startswith_short tb post _ Hpost Hlen).
    rewrite IH; [reflexivity | simpl in Hlen; lia].
Qed.

(** A quoted text between texts without double quote occurs once. *)
Lemma quoted_occurs_once (pre post body : string) :
  lacks dquote pre = true -> lacks dquote post = true ->
  occurrences (quoted body) (pre ++ quoted body ++ post) = 1.
Proof.
  intros Hpre Hpost. induction pre as [|c pre IH].
  - change ("" ++ quoted body ++ post)
      with (String dquote ((body ++ dq) ++ post)).
    cbn [occurrences].
    change (String dquote ((body ++ dq) ++ post))
      with (quoted body ++ post).
    rewrite startswith_app.
    change (quoted body) with ((dq ++ body) ++ dq).
    rewrite occurrences_short; [reflexivity | exact Hpost |].
    rewrite !length_app. simpl. lia.
  - unfold lacks in Hpre. cbn [all_chars] in Hpre.
    apply andb_prop in Hpre as [Hc Hpre].
    apply negb_true_iff in Hc.
    change (String c pre ++ quoted body ++ post)
      with (String c (pre ++ quoted body ++ post)).
    cbn [occurrences].
    assert (Hs : startswith (String c (pre ++ quoted body ++ post))
                   (quoted body) = false).
    { change (quoted body) with (String dquote (body ++ dq)).
      cbn [startswith]. rewrite Ascii.eqb_sym, Hc. reflexivity. }
    rewrite Hs, (IH Hpre). reflexivity.
Qed.

Lemma token_quoted (ws1 name ext ws2 : string) :
  token ws1 name ext ws2
  = quoted ("{{" ++ ws1 ++ name ++ "." ++ ext ++ ws2 ++ "}}").
Proof. unfold token, quoted. now rewrite !app_assoc. Qed.

Lemma leading_whitespace_app (a b : string) (c : ascii) :
  isspace c = false ->
  leading_whitespace (a ++ String c b) = leading_whitespace a.
Proof.
  intros Hc. induction a as [|x a IH]; simpl.
  - now rewrite Hc.
  - destruct (isspace x); [now rewrite IH | reflexivity].
Qed.

End OnceFacts.

Import TokenFacts OnceFacts.

(** X1. On a line whose only double quotes are those of one placeholder
    token, the locator returns the name and the extension without the
    whitespace inside the braces, the text before and after the token as
    the remainder, and the leading whitespace of the line plus two as
    the indent width. *)
Theorem single_token_located (pre post ws1 name ext ws2 : string) :
  lacks dquote pre = true -> lacks dquote post = true ->
  all_chars isspace ws1 = true ->
  name <> "" -> all_chars notspace name = true ->
  ext <> "" -> all_chars isword ext = true ->
  all_chars isspace ws2 = true ->
  match_placeholder (pre ++ token ws1 name ext ws2 ++ post)
  = Some (Placeholder (pre ++ post) (name ++ "." ++ ext)
            (Z.of_nat (leading_whitespace pre) + 2)).
Proof.
  intros Hpre Hpost Hws1 Hne Hname Hene Hext Hws2.
  unfold match_placeholder.
  rewrite (search_after_prefix pre _ _ post Hpre
             (token_match ws1 name ext ws2 post
                Hws1 Hne Hname Hene Hext Hws2 Hpost)).
  change (group0 (MkMatch pre
                    [dq; "{"; "{"; ws1; name; "."; ext; ws2; "}"; "}"; dq]
                    post))
    with (token ws1 name ext ws2).
  cbn [part m_parts nth].
  rewrite delete_once.
  - f_equal. f_equal. unfold INDENTATION_SIZE.
    pose proof (length_lstrip (pre ++ token ws1 name ext ws2 ++ post))
      as Hlen.
    unfold token in Hlen at 2.
    change (dq ++ ?t) with (String dquote t) in Hlen.
    change (String dquote ?t ++ post)
      with (String dquote (t ++ post)) in Hlen.
    rewrite leading_whitespace_app in Hlen by reflexivity. lia.
  - unfold token. discriminate.
  - rewrite token_quoted. now apply quoted_occurs_once.
Qed.

Lemma single_token_witness :
  match_placeholder
    ("  key: " ++ token " " "conf/value" "txt" " " ++ " # note" ++ nl)
  = Some (Placeholder ("  key: " ++ " # note" ++ nl) "conf/value.txt" 4).
Proof.
  apply (single_token_located "  key: " (" # note" ++ nl)
           " " "conf/value" "txt" " ");
    first [reflexivity | discriminate].
Defined.

(* ================================================================== *)
(** * The remainder keeps the line terminator *)
(* ================================================================== *)

(** Deleting the occurrences of a text that ends with a double quote
    leaves the newline at the end of a line where it is. *)
Lemma delete_keeps_newline (tb body : string) (k : nat) :
  k <= String.length body ->
  endswith (replace_from (tb ++ dq) "" k (body ++ nl)) nl = true.
Proof.
  revert k. induction body as [|c body IH]; intros k Hk.
  - simpl in Hk. replace k with 0 by lia.
    change ("" ++ nl) with nl. unfold nl at 1. cbn [replace_from].
    fold nl. now rewrite (startswith_unquoted tb nl eq_refl).
  - change (String c body ++ nl) with (String c (body ++ nl)).
    destruct k as [|k]; cbn [replace_from].
    + destruct (startswith (String c (body ++ nl)) (tb ++ dq)) eqn:E.
      * cbn [append]. apply IH.
        destruct (Nat.le_gt_cases (String.length (String c body))
                    (String.length tb)) as [Hle | Hgt].
        -- change (String c (body ++ nl)) with (String c body ++ nl) in E.
           rewrite (startswith_short tb nl _ eq_refl Hle) in E.
           discriminate E.
        -- rewrite length_app. simpl in *. lia.
      * rewrite endswith_cons, IH by lia. apply orb_true_r.
    + apply IH. simpl in Hk. lia.
Qed.

(** X3. The remainder keeps the terminator of the line: when the line
    ends with a newline so does the remainder, and the remainder of a
    template line is a template line. *)
Theorem remainder_keeps_terminator (line : string) (p : placeholder) :
  match_placeholder line = Some p ->
  (endswith line nl = true -> endswith (line_truncated p) nl = true)
  /\ (template_line line = true ->
      template_line (line_truncated p) = true).
Proof.
  intros H. split; [|intros Hl; now apply (remainder_template_line line)].
  intros Hend. unfold match_placeholder in H.
  destruct (search pattern line) as [m|] eqn:E; [|discriminate].
  inversion H; subst; clear H. cbn [line_truncated].
  destruct (search_sound _ _ _ E) as [_ Hparts].
  destruct (shaped_of_parts _ Hparts)
    as (ws1 & name & ext & ws2 & Etok & _).
  fold (group0 m) in Etok. rewrite Etok.
  apply endswith_split in Hend as [body ->].
  replace (dq ++ "{{" ++ ws1 ++ name ++ "." ++ ext ++ ws2 ++ "}}" ++ dq)
    with ((dq ++ "{{" ++ ws1 ++ name ++ "." ++ ext ++ ws2 ++ "}}") ++ dq)
    by now rewrite !app_assoc.
  unfold replace.
  change ((dq ++ ?t) ++ dq) with (String dquote (t ++ dq)).
  change (String dquote
            (("{{" ++ ws1 ++ name ++ "." ++ ext ++ ws2 ++ "}}") ++ dq))
    with ((dq ++ "{{" ++ ws1 ++ name ++ "." ++ ext ++ ws2 ++ "}}") ++ dq).
  apply delete_keeps_newline. lia.
Qed.

Lemma remainder_keeps_terminator_witness :
  let line := "k: " ++ quoted "{{ v.txt }}" ++ " # note" ++ nl in
  let p := Placeholder ("k: " ++ " # note" ++ nl) "v.txt" 2 in
  match_placeholder line = Some p
  /\ endswith (line_truncated p) nl = true
  /\ template_line (line_truncated p) = true.
Proof.
  intros line p.
  assert (H : match_placeholder line = Some p) by (vm_compute; reflexivity).
  split; [exact H|].
  destruct (remainder_keeps_terminator line p H) as [H1 H2].
  split; [apply H1 | apply H2]; vm_compute; reflexivity.
Defined.

(* ================================================================== *)
(** * More on the line-stream processor *)
(* ================================================================== *)

Lemma process_lines_acc (fs : FS) (root : string)
    (lines acc : list string) :
  process_lines fs root lines acc
  = (out <- process_lines fs root lines [] ;;
     Returned (acc ++ out)%list).
Proof.
  revert acc. induction lines as [|x lines IH]; intros acc.
  - cbn [process_lines bind]. now rewrite List.app_nil_r.
  - rewrite !process_lines_step.
    destruct (expand_line fs root x) as [o|e]; cbn [bind]; [|reflexivity].
    rewrite (IH (acc ++ o)%list), (IH ([] ++ o)%list).
    destruct (process_lines fs root lines []) as [out|e]; cbn [bind];
      [|reflexivity].
    now rewrite List.app_assoc.
Qed.

Lemma process_lines_app (fs : FS) (root : string)
    (l1 l2 acc : list string) :
  process_lines fs root (l1 ++ l2)%list acc
  = (o1 <- process_lines fs root l1 acc ;; process_lines fs root l2 o1).
Proof.
  revert acc. induction l1 as [|x l1 IH]; intros acc; [reflexivity|].
  change ((x :: l1) ++ l2)%list with (x :: (l1 ++ l2))%list.
  rewrite !process_lines_step.
  destruct (expand_line fs root x) as [o|e]; cbn [bind]; [|reflexivity].
  apply IH.
Qed.

(** X5. Processing is line-local and sequential: processing two
    templates one after the other gives the output of the first followed
    by the output of the second, and the error of the first when the
    first fails. *)
Theorem generate_app (fs : FS) (root : string) (l1 l2 : list string) :
  generate_processed_content fs root (l1 ++ l2)%list
  = (o1 <- generate_processed_content fs root l1 ;;
     o2 <- generate_processed_content fs root l2 ;;
     Returned (o1 ++ o2)%list).
Proof.
  unfold generate_processed_content. rewrite process_lines_app.
  destruct (process_lines fs root l1 []) as [o1|e]; cbn [bind];
    [|reflexivity].
  apply process_lines_acc.
Qed.

(** An expansion that returns returns at least one line. *)
Lemma expansion_not_empty (fs : FS) (root name rem : string) (n : Z) :
  process_placeholder fs root name rem n <> Returned [].
Proof.
  rewrite process_placeholder_cases.
  destruct (fs (OsPath.join root name)) as [content|]; [|discriminate].
  destruct (forallb blank content); [discriminate|].
  destruct content as [|x [|y l]]; destruct (yaml_name name);
    discriminate.
Qed.

Lemma expand_line_not_empty (fs : FS) (root line : string) :
  expand_line fs root line <> Returned [].
Proof.
  unfold expand_line. destruct (match_placeholder line);
    [apply expansion_not_empty | discriminate].
Qed.

(** X6. The processed content is the concatenation, in order, of what
    each line of the template expands to, and it has at least as many
    lines as the template. *)
Theorem generate_concat (fs : FS) (root : string)
    (lines out : list string) :
  generate_processed_content fs root lines = Returned out ->
  (exists outs,
      Forall2 (fun line o => expand_line fs root line = Returned o)
        lines outs
      /\ out = List.concat outs)
  /\ List.length lines <= List.length out.
Proof.
  unfold generate_processed_content. revert out.
  induction lines as [|x lines IH]; intros out H.
  - inversion H; subst. split; [|simpl; lia].
    exists []. split; [constructor | reflexivity].
  - rewrite process_lines_step in H.
    destruct (expand_line fs root x) as [o|e] eqn:Ex; [|discriminate H].
    cbn [bind] in H. rewrite process_lines_acc in H.
    destruct (process_lines fs root lines []) as [out'|e] eqn:El;
      [|discriminate H].
    cbn [bind] in H. inversion H; subst; clear H.
    destruct (IH out' eq_refl) as [(outs & Hall & ->) Hlen].
    split.
    + exists (o :: outs). split; [now constructor | reflexivity].
    + cbn [List.app]. rewrite List.length_app. cbn [List.length].
      assert (1 <= List.length o).
      { destruct o; [|simpl; lia].
        now apply expand_line_not_empty in Ex. }
      lia.
Qed.

Lemma generate_concat_witness :
  exists out,
    generate_processed_content Samples.dir "d"
      [ "list:" ++ nl; "  - " ++ quoted "{{ items.txt }}" ++ nl ]
    = Returned out
    /\ 2 <= List.length out.
Proof.
  eexists. split; [vm_compute; reflexivity|].
  apply (generate_concat Samples.dir "d"
           [ "list:" ++ nl; "  - " ++ quoted "{{ items.txt }}" ++ nl ]).
  vm_compute. reflexivity.
Defined.

(* ================================================================== *)
(** * More on the expander *)
(* ================================================================== *)

(** X7. An expansion reads one file: its result depends on the file
    system only through the joined path; and a referenced name that
    starts with a slash is read from that absolute path, whatever the
    directory of the template. *)
Theorem expansion_reads_one_path (fs fs' : FS)
    (root name rem : string) (n : Z) :
  fs' (OsPath.join root name) = fs (OsPath.join root name) ->
  process_placeholder fs' root name rem n
  = process_placeholder fs root name rem n
  /\ (startswith name "/" = true ->
      forall root',
        OsPath.join root' name = name
        /\ process_placeholder fs root' name rem n
           = process_placeholder fs root name rem n).
Proof.
  intros H. split.
  - rewrite !process_placeholder_cases. now rewrite H.
  - intros Habs root'.
    assert (Hj : forall r, OsPath.join r name = name).
    { intros r. unfold OsPath.join. now rewrite Habs. }
    split; [apply Hj|].
    rewrite !process_placeholder_cases, !Hj. reflexivity.
Qed.

Lemma expansion_reads_one_path_witness :
  process_placeholder Samples.dir_terminated "d" "v.txt" ("k: " ++ nl) 2
  = process_placeholder Samples.dir "d" "v.txt" ("k: " ++ nl) 2.
Proof.
  assert (H : Samples.dir_terminated (OsPath.join "d" "v.txt")
              = Samples.dir (OsPath.join "d" "v.txt"))
    by (vm_compute; reflexivity).
  exact (proj1 (expansion_reads_one_path Samples.dir
                  Samples.dir_terminated "d" "v.txt" ("k: " ++ nl) 2 H)).
Defined.

Lemma unterminated_no_newline (x : string) :
  all_chars not_newline x = true -> endswith x nl = false.
Proof.
  intros H. destruct (endswith x nl) eqn:E; [|reflexivity].
  apply endswith_split in E as [b ->].
  rewrite all_chars_app in H. apply andb_prop in H as [_ H].
  discriminate H.
Qed.

Lemma forallb_blank_snoc (l : list string) (x : string) :
  forallb blank (l ++ [(x ++ nl)%string])%list = forallb blank (l ++ [x])%list.
Proof.
  rewrite !forallb_app. f_equal. cbn [forallb]. f_equal.
  unfold blank. rewrite all_chars_app. cbn. apply andb_true_r.
Qed.

(** X8. Whether the last line of the referenced file ends with a
    newline makes no difference to the expansion. *)
Theorem final_newline_irrelevant (fs fs' : FS)
    (root name rem : string) (n : Z) (l : list string) (x : string) :
  fs (OsPath.join root name) = Some (l ++ [x])%list ->
  fs' (OsPath.join root name) = Some (l ++ [(x ++ nl)%string])%list ->
  all_chars not_newline x = true ->
  process_placeholder fs' root name rem n
  = process_placeholder fs root name rem n.
Proof.
  intros Hfs Hfs' Hx.
  rewrite !process_placeholder_cases, Hfs, Hfs', forallb_blank_snoc.
  destruct (forallb blank (l ++ [x])%list); [reflexivity|].
  assert (Ht : terminate_last (l ++ [(x ++ nl)%string])%list
               = terminate_last (l ++ [x])%list).
  { rewrite !terminate_last_snoc. f_equal. f_equal. unfold terminated.
    now rewrite endswith_app, (unterminated_no_newline _ Hx). }
  destruct l as [|y l].
  - cbn [List.app].
    rewrite (replace_newline_absent x "" Hx).
    rewrite (replace_newline_line (x ++ nl) "")
      by now apply template_line_terminated.
    now rewrite replace_trailing_present, app_nil_r.
  - rewrite Ht.
    change ((y :: l) ++ [(x ++ nl)%string])%list
      with (y :: (l ++ [(x ++ nl)%string]))%list.
    change ((y :: l) ++ [x])%list with (y :: (l ++ [x]))%list.
    cbn [nth].
    destruct (l ++ [(x ++ nl)%string])%list as [|z t] eqn:E1;
      [destruct l; discriminate E1|].
    destruct (l ++ [x])%list as [|z' t'] eqn:E2;
      [destruct l; discriminate E2|].
    reflexivity.
Qed.

Lemma final_newline_witness :
  process_placeholder Samples.dir_terminated "d" "items.txt"
    ("  - " ++ nl) 4
  = process_placeholder Samples.dir "d" "items.txt" ("  - " ++ nl) 4.
Proof.
  apply (final_newline_irrelevant Samples.dir Samples.dir_terminated
           "d" "items.txt" ("  - " ++ nl) 4 ["a" ++ nl; "  " ++ nl] "b");
    vm_compute; reflexivity.
Defined.

Lemma single_line_in_place_witness :
  let line := "  key: " ++ quoted "{{ v.txt }}" ++ nl in
  expand_line Samples.dir "d" line = Returned ["  key: hello" ++ nl].
Proof.
  intros line. unfold expand_line.
  assert (Hp : match_placeholder line
               = Some (Placeholder ("  key: " ++ nl) "v.txt" 4))
    by (vm_compute; reflexivity).
  rewrite Hp.
  rewrite (single_line_in_place_at_line_end Samples.dir "d" line
             ("hello" ++ nl) _
             (MkMatch "  key: "
                [dq; "{"; "{"; " "; "v"; "."; "txt"; " "; "}"; "}"; dq]
                nl));
    first [reflexivity | exact Hp | vm_compute; reflexivity].
Defined.

(* ================================================================== *)
(** * The format of a referenced name *)
(* ================================================================== *)

Module PathFacts.

Lemma rfind_from_app (d : ascii) (i last : Z) (a b : string) :
  rfind_from d i last (a ++ b)
  = rfind_from d (i + Z.of_nat (String.length a))
      (rfind_from d i last a) b.
Proof.
  revert i last. induction a as [|c a IH]; intros i last.
  - simpl. now rewrite Z.add_0_r.
  - cbn [append rfind_from String.length]. rewrite IH.
    f_equal. lia.
Qed.

Lemma rfind_from_lacks (d : ascii) (i last : Z) (s : string) :
  lacks d s = true -> rfind_from d i last s = last.
Proof.
  revert i. induction s as [|c s IH]; intros i H; [reflexivity|].
  unfold lacks in H. cbn [all_chars] in H.
  apply andb_prop in H as [Hc Hs]. apply negb_true_iff in Hc.
  cbn [rfind_from]. rewrite Hc. now apply IH.
Qed.

Lemma substring_skip (a b : string) (m : nat) :
  substring (String.length a) m (a ++ b) = substring 0 m b.
Proof. induction a as [|c a IH]; [reflexivity | exact IH]. Qed.

Lemma substring_prefix (a b : string) :
  substring 0 (String.length a) (a ++ b) = a.
Proof.
  induction a as [|c a IH]; simpl.
  - now destruct b.
  - now rewrite IH.
Qed.

Lemma substring_all (a : string) : substring 0 (String.length a) a = a.
Proof.
  rewrite <- (StrFacts.app_nil_r a) at 2. apply substring_prefix.
Qed.

Lemma lstrip_char_lacks (d : ascii) (s : string) :
  lacks d s = true -> lstrip_char d s = s.
Proof.
  destruct s as [|c s]; [reflexivity|]. intros H.
  unfold lacks in H. cbn [all_chars] in H.
  apply andb_prop in H as [Hc _]. apply negb_true_iff in Hc.
  cbn [lstrip_char]. now rewrite Hc.
Qed.

(** The index after the last slash of a directory prefix is its length. *)
Lemma rfind_slash (dirp rest : string) :
  directory_prefix dirp -> lacks "/" rest = true ->
  (rfind (dirp ++ rest) "/" + 1)%Z = Z.of_nat (String.length dirp).
Proof.
  intros Hd Hrest. unfold rfind. rewrite rfind_from_app.
  rewrite (rfind_from_lacks _ _ _ _ Hrest).
  destruct Hd as [-> | [d ->]]; [reflexivity|].
  rewrite rfind_from_app. cbn [rfind_from]. rewrite Ascii.eqb_refl.
  rewrite length_app. simpl. lia.
Qed.

Lemma rfind_dot (stem ext : string) :
  lacks "." ext = true ->
  rfind (stem ++ "." ++ ext) "." = Z.of_nat (String.length stem).
Proof.
  intros Hext. unfold rfind. rewrite rfind_from_app.
  change ("." ++ ext) with (String "." ext).
  cbn [rfind_from]. rewrite Ascii.eqb_refl.
  now rewrite (rfind_from_lacks _ _ _ _ Hext).
Qed.

(** [os.path.splitext] on a name with a visible extension. *)
Lemma splitext_name (dirp base ext : string) :
  directory_prefix dirp ->
  lacks "/" base = true ->
  lacks "/" ext = true -> lacks "." ext = true ->
  OsPath.splitext (dirp ++ base ++ "." ++ ext)
  = if all_chars (Ascii.eqb ".") base
    then (dirp ++ base ++ "." ++ ext, "")
    else (dirp ++ base, "." ++ ext).
Proof.
  intros Hd Hbase Hext1 Hext2. unfold OsPath.splitext.
  assert (Hrest : lacks "/" (base ++ "." ++ ext) = true).
  { rewrite lacks_app, Hbase.
    change ("." ++ ext) with (String "." ext).
    unfold lacks in *. cbn [all_chars]. now rewrite Hext1. }
  pose proof (rfind_slash dirp _ Hd Hrest) as Hsep.
  assert (Hdot : rfind (dirp ++ base ++ "." ++ ext) "."
                 = Z.of_nat (String.length (dirp ++ base))).
  { rewrite <- (rfind_dot (dirp ++ base) ext Hext2).
    now rewrite app_assoc. }
  rewrite Hdot, Hsep. rewrite length_app.
  replace (rfind (dirp ++ base ++ "." ++ ext) "/"
           <? Z.of_nat (String.length dirp + String.length base))%Z
    with true by (symmetry; apply Z.ltb_lt; lia).
  unfold slice, slice_from.
  replace (Z.to_nat (Z.of_nat (String.length dirp)))
    with (String.length dirp) by lia.
  replace (Z.to_nat
             (Z.of_nat (String.length dirp + String.length base)
              - Z.of_nat (String.length dirp)))
    with (String.length base) by lia.
  rewrite substring_skip, substring_prefix.
  destruct (all_chars (Ascii.eqb ".") base); [reflexivity|].
  replace (Z.to_nat
             (Z.of_nat (String.length dirp + String.length base) - 0))
    with (String.length (dirp ++ base)) by (rewrite length_app; lia).
  replace (Z.to_nat 0) with 0 by reflexivity.
  replace (Z.to_nat (Z.of_nat (String.length dirp + String.length base)))
    with (String.length (dirp ++ base)) by (rewrite length_app; lia).
  rewrite <- (app_assoc dirp base).
  rewrite substring_prefix, substring_skip.
  replace (String.length ((dirp ++ base) ++ "." ++ ext)
           - String.length (dirp ++ base))
    with (String.length ("." ++ ext))
    by (rewrite (length_app _ ("." ++ ext)); lia).
  now rewrite substring_all.
Qed.

End PathFacts.

Import PathFacts.



(* ================================================================== *)
(** * The YAML expansion *)
(* ================================================================== *)

(** C4, as stated, fails for a name that has nothing but its extension
    in its last path component: the locator returns such a name, its
    extension token is yaml, and the expander treats the file as text,
    with the block marker after the remainder. *)
Lemma dotted_yaml_expanded_as_text :
  match_placeholder ("  " ++ quoted "{{ conf/.yaml }}" ++ nl)
  = Some (Placeholder ("  " ++ nl) "conf/.yaml" 4)
  /\ process_placeholder Samples.dotted "d" "conf/.yaml" ("  " ++ nl) 4
     = Returned ["  |" ++ nl; "    a: 1" ++ nl; "    b: 2" ++ nl]
  /\ ~ yaml_by_extension_token Samples.dotted "d" "conf/.yaml"
        ("  " ++ nl) 4.
Proof.
  split; [vm_compute; reflexivity|].
  split; [vm_compute; reflexivity|].
  intros H.
  destruct (H "conf/" "yaml" ["a: 1" ++ nl; "b: 2" ++ nl])
    as (out & Hout & Hhd);
    try (vm_compute; reflexivity);
    try discriminate.
  - split; [simpl; lia | vm_compute; reflexivity].
  - vm_compute in Hout. inversion Hout; subst out.
    vm_compute in Hhd. discriminate Hhd.
Qed.

(** C4, amended. For a multi-line referenced file whose name ends with a
    dot and yaml or yml, in any letter case, and whose last path
    component has a character other than a dot before that extension,
    the expander emits the remainder unchanged, then every content line
    prefixed with the indent width in spaces, a blank line being emitted
    as a bare newline; the first content line is dropped exactly when it
    is the marker line of three dashes. A name whose last path component
    has only dots, or nothing, before the extension is expanded as text:
    the remainder with its newlines replaced by the block marker and a
    newline, then all the content lines. *)
Theorem yaml_extension_expansion (fs : FS)
    (root dirp base ext rem : string) (n : Z) (content : list string) :
  directory_prefix dirp ->
  lacks "/" base = true ->
  lacks "/" ext = true -> lacks "." ext = true ->
  mem (lower ext) ["yaml"; "yml"] = true ->
  fs (OsPath.join root (dirp ++ base ++ "." ++ ext)) = Some content ->
  multi_line content ->
  exists out,
    process_placeholder fs root (dirp ++ base ++ "." ++ ext) rem n
    = Returned out
    /\ if all_chars (Ascii.eqb ".") base
       then out
            = replace rem nl ("|" ++ nl)
              :: map (fun line =>
                        if blank line then nl else spaces n ++ line)
                     (terminate_last content)
       else hd "" out = rem
            /\ (nth 0 content "" = "---" ++ nl ->
                tl out
                = map (fun line =>
                         if blank line then nl else spaces n ++ line)
                      (tl (terminate_last content)))
            /\ (nth 0 content "" <> "---" ++ nl ->
                tl out
                = map (fun line =>
                         if blank line then nl else spaces n ++ line)
                      (terminate_last content)).
Proof.
  intros Hd Hbase Hext1 Hext2 Hyaml Hfs Hml.
  destruct (multi_line_not_blank _ Hml) as (Hnb & x & y & l & ->).
  rewrite process_placeholder_cases, Hfs, Hnb.
  unfold yaml_name.
  rewrite (splitext_name dirp base ext Hd Hbase Hext1 Hext2).
  fold (emit n).
  destruct (all_chars (Ascii.eqb ".") base).
  - cbn [snd lstrip_char lower mem existsb]. eexists.
    split; reflexivity.
  - cbn [snd]. change ("." ++ ext) with (String "." ext).
    cbn [lstrip_char]. rewrite Ascii.eqb_refl.
    rewrite (lstrip_char_lacks _ _ Hext2), Hyaml.
    eexists. split; [reflexivity|]. split; [reflexivity|].
    cbn [tl]. split; intros H.
    + apply String.eqb_eq in H. now rewrite H.
    + apply String.eqb_neq in H. now rewrite H.
Qed.

Lemma yaml_extension_witness :
  process_placeholder Samples.dir "d" "spec.yaml" ("  " ++ nl) 4
  = Returned [ "  " ++ nl; "    foo: bar" ++ nl; "    baz: 1" ++ nl ]
  /\ process_placeholder Samples.dir "d" "plain.YML" ("  " ++ nl) 4
     = Returned [ "  " ++ nl; "    foo: bar" ++ nl; nl; "    baz: 1" ++ nl ].
Proof.
  assert (Hd : directory_prefix "") by now left.
  split.
  - assert (Hml : multi_line ["---" ++ nl; "foo: bar" ++ nl; "baz: 1"])
      by (split; [simpl; lia | vm_compute; reflexivity]).
    destruct (yaml_extension_expansion Samples.dir "d" "" "spec" "yaml"
                ("  " ++ nl) 4 ["---" ++ nl; "foo: bar" ++ nl; "baz: 1"]
                Hd eq_refl eq_refl eq_refl eq_refl eq_refl Hml)
      as (out & Hout & Hrest).
    change (all_chars (Ascii.eqb ".") "spec") with false in Hrest.
    cbv iota in Hrest. destruct Hrest as (Hhd & Hdrop & _).
    change ("" ++ "spec" ++ "." ++ "yaml") with "spec.yaml" in Hout.
    rewrite Hout. specialize (Hdrop eq_refl).
    destruct out as [|o out]; [discriminate Hhd|].
    cbn [hd tl] in Hhd, Hdrop. rewrite Hhd, Hdrop.
    vm_compute. reflexivity.
  - assert (Hml : multi_line ["foo: bar" ++ nl; nl; "baz: 1" ++ nl])
      by (split; [simpl; lia | vm_compute; reflexivity]).
    destruct (yaml_extension_expansion Samples.dir "d" "" "plain" "YML"
                ("  " ++ nl) 4 ["foo: bar" ++ nl; nl; "baz: 1" ++ nl]
                Hd eq_refl eq_refl eq_refl eq_refl eq_refl Hml)
      as (out & Hout & Hrest).
    change (all_chars (Ascii.eqb ".") "plain") with false in Hrest.
    cbv iota in Hrest. destruct Hrest as (Hhd & _ & Hkeep).
    change ("" ++ "plain" ++ "." ++ "YML") with "plain.YML" in Hout.
    rewrite Hout.
    assert (Hk : nth 0 ["foo: bar" ++ nl; nl; "baz: 1" ++ nl] ""
                 <> "---" ++ nl) by (vm_compute; discriminate).
    specialize (Hkeep Hk).
    destruct out as [|o out]; [discriminate Hhd|].
    cbn [hd tl] in Hhd, Hkeep. rewrite Hhd, Hkeep.
    vm_compute. reflexivity.
Defined.

(* ================================================================== *)
(** * More on the driver *)
(* ================================================================== *)

Lemma rstrip_slash_empty (s : string) :
  OsPath.rstrip_slash s = "" -> all_chars (Ascii.eqb "/") s = true.
Proof.
  induction s as [|c s IH]; [reflexivity|]. cbn [OsPath.rstrip_slash all_chars].
  destruct (OsPath.rstrip_slash s) as [|a r]; [|discriminate].
  rewrite (Ascii.eqb_sym "/" c).
  destruct (Ascii.eqb c "/"); [intros _; now apply IH | discriminate].
Qed.

(** A path with a slash has a directory part. *)
Lemma dirname_truthy (d f : string) :
  lacks "/" f = true ->
  truthy (OsPath.dirname (d ++ "/" ++ f)) = true.
Proof.
  intros Hf. unfold OsPath.dirname.
  rewrite <- (app_assoc d "/" f).
  rewrite (rfind_slash (d ++ "/") f) by (try right; eauto).
  unfold slice. rewrite Z.sub_0_r, Nat2Z.id.
  change (Z.to_nat 0) with 0. rewrite substring_prefix.
  destruct (all_chars (Ascii.eqb "/") (d ++ "/")) eqn:E.
  - rewrite andb_false_r. destruct d; reflexivity.
  - assert (Hd : truthy (d ++ "/") = true) by (destruct d; reflexivity).
    rewrite Hd. cbn [andb negb].
    destruct (OsPath.rstrip_slash (d ++ "/")) eqn:Er; [|reflexivity].
    apply rstrip_slash_empty in Er. congruence.
Qed.

(** The path the driver writes has a directory part. *)
Lemma target_has_directory (BASE_DIR : string) :
  truthy
    (OsPath.dirname (OsPath.join (TARGET_DIR BASE_DIR) "template.yaml"))
  = true.
Proof.
  assert (Hne : truthy (TARGET_DIR BASE_DIR) = true).
  { unfold TARGET_DIR, OsPath.join. cbn [startswith].
    change (Ascii.eqb "/" "t") with false. cbn [andb].
    destruct (negb (truthy BASE_DIR) || endswith BASE_DIR "/");
      destruct BASE_DIR; reflexivity. }
  unfold OsPath.join at 1. cbn [startswith].
  change (Ascii.eqb "/" "t") with false. cbn [andb].
  rewrite Hne. cbn [negb orb].
  destruct (endswith (TARGET_DIR BASE_DIR) "/") eqn:E.
  - apply endswith_split in E as [d ->]. rewrite app_assoc.
    now apply dirname_truthy.
  - now apply dirname_truthy.
Qed.





(* ================================================================== *)
(** * Where the content goes *)
(* ================================================================== *)

(** X10. The content of a one-line file goes to the end of the remainder:
    for a remainder that is a terminated line, the expander returns the
    text of the remainder, then the line of the file without its
    newline, then the newline. *)
Theorem single_line_appended (fs : FS) (root name body x : string)
    (n : Z) :
  fs (OsPath.join root name) = Some [x] ->
  blank x = false ->
  template_line x = true ->
  all_chars not_newline body = true ->
  process_placeholder fs root name (body ++ nl) n
  = Returned [body ++ replace_trailing_newline x "" ++ nl].
Proof.
  intros Hfs Hx Hline Hbody.
  rewrite process_placeholder_cases, Hfs.
  cbn [forallb]. rewrite Hx. cbn [andb].
  rewrite (replace_newline_line x "" Hline).
  rewrite replace_newline_line by now apply template_line_terminated.
  now rewrite replace_trailing_present.
Qed.

Lemma single_line_appended_witness :
  process_placeholder Samples.dir "d" "v.txt" ("key:  # note" ++ nl) 2
  = Returned ["key:  # notehello" ++ nl].
Proof.
  apply (single_line_appended Samples.dir "d" "v.txt" "key:  # note"
           ("hello" ++ nl) 2);
    vm_compute; reflexivity.
Defined.

Lemma leading_whitespace_spaces (k : nat) (line : string) :
  leading_whitespace (spaces_nat k ++ line) = k + leading_whitespace line.
Proof. induction k as [|k IH]; simpl; [reflexivity | now rewrite IH]. Qed.

Lemma lstrip_spaces (k : nat) (line : string) :
  lstrip (spaces_nat k ++ line) = lstrip line.
Proof. induction k as [|k IH]; simpl; [reflexivity | exact IH]. Qed.

Lemma emit_shifted (n : Z) (l : list string) :
  Forall2 (shifted n) l (map (emit n) l).
Proof.
  induction l as [|x l IH]; constructor; [|exact IH].
  unfold shifted, emit, spaces. destruct (blank x); [reflexivity|].
  split; [apply leading_whitespace_spaces | apply lstrip_spaces].
Qed.

(** X12. A multi-line expansion keeps the relative indentation of the
    referenced content: after the first output line, the lines of the
    file, the last one terminated, are emitted in order, each non-blank
    one with exactly the indent width more leading whitespace and the
    same text after it, each blank one as a bare newline; the first line
    is left out only for a YAML name whose first line is the
    document-start marker. *)
Theorem multi_line_indentation_kept (fs : FS)
    (root name rem : string) (n : Z) (content : list string) :
  fs (OsPath.join root name) = Some content ->
  multi_line content ->
  exists out,
    process_placeholder fs root name rem n = Returned out
    /\ Forall2 (shifted n)
         (if yaml_name name
             && String.eqb (nth 0 content "") ("---" ++ nl)
          then tl (terminate_last content)
          else terminate_last content)
         (tl out).
Proof.
  intros Hfs Hml.
  destruct (multi_line_not_blank _ Hml) as (Hnb & x & y & l & ->).
  rewrite process_placeholder_cases, Hfs, Hnb.
  destruct (yaml_name name).
  - destruct (String.eqb (nth 0 (x :: y :: l) "") ("---" ++ nl));
      eexists; (split; [reflexivity|]); apply emit_shifted.
  - eexists. split; [reflexivity|]. apply emit_shifted.
Qed.

Lemma multi_line_indentation_witness :
  exists out,
    process_placeholder Samples.dir "d" "spec.yaml" ("  " ++ nl) 4
    = Returned out
    /\ Forall2 (shifted 4) ["foo: bar" ++ nl; "baz: 1" ++ nl] (tl out).
Proof.
  destruct (multi_line_indentation_kept Samples.dir "d" "spec.yaml"
              ("  " ++ nl) 4 ["---" ++ nl; "foo: bar" ++ nl; "baz: 1"])
    as (out & Hout & Hshift).
  - vm_compute. reflexivity.
  - split; [simpl; lia | vm_compute; reflexivity].
  - exists out. split; [exact Hout | exact Hshift].
Defined.

(* ================================================================== *)
(** * Writing and reading back *)
(* ================================================================== *)

Lemma split_terminated (x rest : string) :
  terminated_line x = true ->
  split_lines (x ++ rest) = x :: split_lines rest.
Proof.
  induction x as [|c x IH]; intros H; [discriminate H|].
  destruct x as [|c2 x].
  - cbn [terminated_line] in H. apply Ascii.eqb_eq in H. subst c.
    reflexivity.
  - change (plain_char c && terminated_line (String c2 x) = true) in H.
    apply andb_prop in H as [Hc Hx]. unfold plain_char in Hc.
    apply andb_prop in Hc as [Hn Hr].
    apply negb_true_iff in Hn. apply negb_true_iff in Hr.
    change (String c (String c2 x) ++ rest)
      with (String c (String c2 x ++ rest)).
    cbn [split_lines]. rewrite Hn, Hr, (IH Hx). reflexivity.
Qed.

Lemma split_unterminated (x : string) :
  truthy x = true -> all_chars plain_char x = true ->
  split_lines x = [x].
Proof.
  induction x as [|c x IH]; intros Ht H; [discriminate Ht|].
  cbn [all_chars] in H. apply andb_prop in H as [Hc Hx].
  unfold plain_char in Hc. apply andb_prop in Hc as [Hn Hr].
  apply negb_true_iff in Hn. apply negb_true_iff in Hr.
  cbn [split_lines]. rewrite Hn, Hr.
  destruct x as [|c2 x]; [reflexivity|].
  now rewrite (IH eq_refl Hx).
Qed.

(** Lines joined and read again are the same lines. *)
Lemma split_concat (l : list string) :
  read_lines l = true -> split_lines (concat_all l) = l.
Proof.
  induction l as [|x [|y l] IH]; intros H; [reflexivity| |].
  - cbn [concat_all]. rewrite app_nil_r.
    cbn [read_lines] in H. apply orb_prop in H as [H | H].
    + rewrite <- (app_nil_r x) at 1. now rewrite split_terminated.
    + apply andb_prop in H as [Ht Hx]. now apply split_unterminated.
  - change (terminated_line x && read_lines (y :: l) = true) in H.
    apply andb_prop in H as [Hx Hl].
    change (concat_all (x :: y :: l)) with (x ++ concat_all (y :: l)).
    now rewrite (split_terminated _ _ Hx), (IH Hl).
Qed.

(** X15. Writing and reading back: after a run on a template without
    placeholder-shaped text whose lines are as reading yields them, with
    the write going through, reading the template of the target
    directory returns the lines of the source template. *)
Theorem plain_template_round_trip (BASE_DIR : string) (w : World)
    (lines : list string) :
  files w (OsPath.join (SOURCE_DIR BASE_DIR) "template.yaml")
  = Some lines ->
  Forall (fun line => ~ contains_placeholder line) lines ->
  read_lines lines = true ->
  faults w (OsPath.join (TARGET_DIR BASE_DIR) "template.yaml") = NoFault ->
  exists w',
    process_templates BASE_DIR w = (w', Returned tt)
    /\ read_file_content (files w')
         (OsPath.join (TARGET_DIR BASE_DIR) "template.yaml")
       = Returned lines.
Proof.
  intros Hfs Hlines Hread Hfault.
  unfold process_templates, read_file_content at 1.
  rewrite Hfs. unfold generate_processed_content.
  rewrite process_lines_verbatim
    by (eapply Forall_impl; [|exact Hlines];
        intros line Hline; now apply match_none_iff).
  cbn [List.app]. unfold save_yaml_template.
  rewrite target_has_directory, Hfault.
  eexists. split; [reflexivity|].
  unfold read_file_content. cbn [print record_write store files].
  now rewrite String.eqb_refl, (split_concat _ Hread).
Qed.

Lemma plain_template_round_trip_witness :
  exists w',
    process_templates "/app" Samples.plain_world = (w', Returned tt)
    /\ read_file_content (files w') "/app/template/template.yaml"
       = Returned ["a: 1" ++ nl; "b: {{ v.txt }}" ++ nl; "c: 3"].
Proof.
  apply (plain_template_round_trip "/app" Samples.plain_world
           ["a: 1" ++ nl; "b: {{ v.txt }}" ++ nl; "c: 3"]).
  - reflexivity.
  - repeat constructor; apply match_none_iff; vm_compute; reflexivity.
  - vm_compute. reflexivity.
  - reflexivity.
Defined.

(** X16. A target without directory part cannot be saved: the making of
    its directory raises the missing-file error, and the world is left
    as it was. *)
Theorem save_needs_directory (w : World) (content : list string)
    (target_file : string) :
  lacks "/" target_file = true ->
  exists msg,
    save_yaml_template w content target_file
    = (w, Raised (FileNotFoundError msg)).
Proof.
  intros H. unfold save_yaml_template, OsPath.dirname, rfind.
  rewrite (rfind_from_lacks _ _ _ _ H).
  change (slice target_file 0 (-1 + 1)) with (substring 0 0 target_file).
  assert (E : substring 0 0 target_file = "")
    by (destruct target_file; reflexivity).
  rewrite E. cbn [truthy andb]. eexists. reflexivity.
Qed.

Lemma save_needs_directory_witness :
  exists msg,
    save_yaml_template Samples.good_world ["a: 1" ++ nl] "template.yaml"
    = (Samples.good_world, Raised (FileNotFoundError msg)).
Proof.
  apply (save_needs_directory Samples.good_world ["a: 1" ++ nl]
           "template.yaml").
  vm_compute. reflexivity.
Defined.
